(** * TruckLog Pro front end: the App component of src/src/App.jsx

    A shallow embedding of the stateful core of the React component [App]:
    the compliance arithmetic shown in the banner, the two Leaflet effects
    that create the map and redraw the route, and the asynchronous submit
    handler.  App.jsx is kept in two revisions in the sources; both share
    the effects and the handler, the first one writes the banner arithmetic
    inline, the second one names it [calculateTotalTripHours] and
    [calculateRemainingCycle].

    JavaScript numbers are modelled by exact rationals ([Q]); equalities
    between numbers are therefore stated with [==]. *)

From Stdlib Require Import QArith Qround Qminmax Lqa.
From Stdlib Require Import DecimalString.
From stdpp Require Import gmap strings list fin_maps fin_sets.

Local Open Scope Q_scope.
Set Warnings "-clear-no-such-hyp".

(** ** JavaScript numbers and their rendering *)

Module Js.

(** Nearest integer, a tie going to the larger one: the integer [n] that
    [Number.prototype.toFixed] picks for a non-negative argument. *)
Definition round_half_up (x : Q) : Z := Qfloor (x + (1 # 2)).

(** [x.toFixed(1)], as the signed number of tenths that the resulting
    string spells.  A negative [x] is rounded on its absolute value. *)
Definition toFixed1 (x : Q) : Z :=
  if Qlt_le_dec x 0 then (- round_half_up (- x * 10))%Z
  else round_half_up (x * 10).

(** [parseFloat] of a string produced by [toFixed(1)]. *)
Definition parseFloat (tenths : Z) : Q := tenths # 10.

Definition digits (n : Z) : string :=
  NilZero.string_of_uint (N.to_uint (Z.to_N n)).

(** The characters of a [toFixed(1)] string: sign, integer part, a dot,
    one fractional digit. *)
Definition fixed1_text (tenths : Z) : string :=
  ((if (tenths <? 0)%Z then "-" else EmptyString)
     +:+ digits (Z.abs tenths / 10) +:+ "." +:+ digits (Z.abs tenths mod 10))%string.

(** [a || b] on strings: the empty string is falsy. *)
Definition or_else (a b : string) : string :=
  match a with EmptyString => b | _ => a end.

(** [a || b] where [a] is a string property that may be missing. *)
Definition prop_or_else (a : option string) (b : string) : string :=
  match a with Some s => or_else s b | None => b end.

End Js.

(** ** Day logs and the compliance banner *)

Module Compliance.
Import Js.

Record ActivityEntry := {
  activity : string;
  duration : Q;
  color : string
}.

Record DayLog := {
  day : Z;
  entries : list ActivityEntry;
  total_driving : Q;
  total_on_duty : Q;
  total_sleeper : Q;
  total_off_duty : Q
}.

(** [logs.reduce((acc, day) => acc + day.total_driving + day.total_on_duty, 0)] *)
Definition totalTripHours (logs : list DayLog) : Q :=
  fold_left (fun acc day => acc + total_driving day + total_on_duty day) logs 0.

(** [Math.max(0, 70 - (currentCycleUsed + totalTripHours))] *)
Definition remainingCycleHours (currentCycleUsed totalTripHours : Q) : Q :=
  Qmax 0 (70 - (currentCycleUsed + totalTripHours)).


(** Per-day total shown on each log card. *)
Definition dailyTotal (d : DayLog) : Q :=
  total_driving d + total_on_duty d + total_sleeper d + total_off_duty d.

(** First revision, banner text: the two inline expressions, each
    followed by [.toFixed(1)]. *)
Definition banner_trip_hours (logs : list DayLog) : Z :=
  toFixed1 (totalTripHours logs).

Definition banner_remaining_cycle (currentCycleUsed : Q) (logs : list DayLog) : Z :=
  toFixed1 (remainingCycleHours currentCycleUsed (totalTripHours logs)).

(** Second revision: the named helpers.  [calculateRemainingCycle]
    re-reads the already rounded string of [calculateTotalTripHours]. *)
Definition calculateTotalTripHours (logs : list DayLog) : Z :=
  toFixed1 (totalTripHours logs).

Definition calculateRemainingCycle (currentCycleUsed : Q) (logs : list DayLog) : Z :=
  let totalTripHours := parseFloat (calculateTotalTripHours logs) in
  toFixed1 (remainingCycleHours currentCycleUsed totalTripHours).




End Compliance.

Import Js Compliance.

(** ** Completions: how a block of JavaScript ends *)

Module Completion.

(** A thrown JavaScript [Error]; only its [message] is ever read. *)
Record JsError := { message : string }.

(** A block either runs to its end or throws; the state it has reached
    is kept in both cases, since nothing is rolled back by a throw. *)
Inductive Completion (S : Type) : Type :=
| Normal (s : S)
| Throws (err : JsError) (s : S).
Arguments Normal {S} s.
Arguments Throws {S} err s.

Definition state_of {S} (c : Completion S) : S :=
  match c with Normal s => s | Throws _ s => s end.

Definition thrown {S} (c : Completion S) : option JsError :=
  match c with Normal _ => None | Throws e _ => Some e end.

(** Sequencing: the rest of the block is skipped after a throw. *)
Definition andThen {S} (c : Completion S) (k : S -> Completion S) : Completion S :=
  match c with Normal s => k s | Throws e s => Throws e s end.

(** The text of the [TypeError] raised when a property is read off
    [undefined]; the wording is the engine's (here V8's). *)
Definition undefined_property_message (prop : string) : string :=
  ("Cannot read properties of undefined (reading '" +:+ prop +:+ "')")%string.

End Completion.

Notation "c >>> k" := (Completion.andThen c k) (at level 62, left associativity).

(** ** The Leaflet objects the component touches

    Leaflet itself is a dependency and not part of the sources; what follows
    is its documented behaviour for the handful of calls made by App.jsx.
    Layer objects live in a store indexed by their address, which doubles as
    Leaflet's internal stamp ([_leaflet_id]); a map holds the stamps of the
    layers currently added to it. *)

Module Leaflet.
Import Completion.

Definition LatLng : Type := Q * Q.

Inductive Layer :=
| TileLayer (url attribution : string)
| Marker (latlng : option LatLng) (popup : option string)
| Polyline (latlngs : list LatLng) (color : string) (weight : Z).

Inductive View :=
| SetView (center : LatLng) (zoom : Z)
| FitBounds (bounds : list LatLng) (padding : Z * Z).

Record Map := {
  map_layers : gset nat;
  map_view : option View
}.

(** The object store. *)
Record Store := {
  next : nat;
  objects : gmap nat Layer
}.

Definition alloc (l : Layer) (h : Store) : nat * Store :=
  (next h, {| next := S (next h); objects := <[next h := l]> (objects h) |}).

Definition is_marker (h : Store) (i : nat) : bool :=
  match objects h !! i with Some (Marker _ _) => true | _ => false end.

Definition is_polyline (h : Store) (i : nat) : bool :=
  match objects h !! i with Some (Polyline _ _ _) => true | _ => false end.

(** [map.setView(center, zoom)] *)
Definition setView (center : LatLng) (zoom : Z) (m : Map) : Map :=
  {| map_layers := map_layers m; map_view := Some (SetView center zoom) |}.

(** [map.fitBounds(bounds, { padding })] *)
Definition fitBounds (bounds : list LatLng) (padding : Z * Z) (m : Map) : Map :=
  {| map_layers := map_layers m; map_view := Some (FitBounds bounds padding) |}.

(** [map.addLayer(layer)]: registers the stamp; adding twice is harmless.
    Layers that Leaflet registers on its own account, such as the renderer
    it creates with the first vector layer, are not represented. *)
Definition addLayer (i : nat) (m : Map) : Map :=
  {| map_layers := {[i]} ∪ map_layers m; map_view := map_view m |}.

(** [map.removeLayer(layer)]: nothing happens if the layer is not there. *)
Definition removeLayer (i : nat) (m : Map) : Map :=
  {| map_layers := map_layers m ∖ {[i]}; map_view := map_view m |}.

(** [layer.bindPopup(text)] mutates the layer object where it lives. *)
Definition bindPopup (i : nat) (text : string) (h : Store) : Store :=
  {| next := next h;
     objects := alter (fun l => match l with
                                | Marker c _ => Marker c (Some text)
                                | other => other
                                end) i (objects h) |}.

(** The DOM element a map is drawn in.  [L.map] stamps it and refuses an
    element that is already stamped; [map.remove()] clears the stamp. *)
Record Container := { leaflet_id : option nat }.

Definition map (c : Container) (h : Store) : JsError + (Map * Container * Store) :=
  match leaflet_id c with
  | Some _ => inl {| message := "Map container is already initialized." |}
  | None =>
      inr ({| map_layers := ∅; map_view := None |},
           {| leaflet_id := Some (next h) |},
           {| next := S (next h); objects := objects h |})
  end.

Definition remove (c : Container) : Container := {| leaflet_id := None |}.

(** Layers of a given sort that are on the map. *)
Definition markers_on (h : Store) (m : Map) : gset nat :=
  filter (fun i => is_marker h i = true) (map_layers m).

Definition polylines_on (h : Store) (m : Map) : gset nat :=
  filter (fun i => is_polyline h i = true) (map_layers m).

End Leaflet.

(** ** The component: state, refs, effects and the submit handler *)

Module App.
Import Completion Leaflet.

(** The nine [useState] cells. *)
Record AppState := {
  currentLocation : string;
  pickupLocation : string;
  dropoffLocation : string;
  currentCycleUsed : Q;
  logs : list DayLog;
  isCalculating : bool;
  error : string;
  routePoints : list LatLng;
  totalDistance : option Q
}.

Definition initialState : AppState :=
  {| currentLocation := "Chicago, IL";
     pickupLocation := "St. Louis, MO";
     dropoffLocation := "Atlanta, GA";
     currentCycleUsed := 45 # 2;
     logs := [];
     isCalculating := false;
     error := EmptyString;
     routePoints := [];
     totalDistance := None |}.

Definition setCurrentLocation (v : string) (s : AppState) : AppState :=
  {| currentLocation := v; pickupLocation := pickupLocation s;
     dropoffLocation := dropoffLocation s; currentCycleUsed := currentCycleUsed s;
     logs := logs s; isCalculating := isCalculating s; error := error s;
     routePoints := routePoints s; totalDistance := totalDistance s |}.

Definition setPickupLocation (v : string) (s : AppState) : AppState :=
  {| currentLocation := currentLocation s; pickupLocation := v;
     dropoffLocation := dropoffLocation s; currentCycleUsed := currentCycleUsed s;
     logs := logs s; isCalculating := isCalculating s; error := error s;
     routePoints := routePoints s; totalDistance := totalDistance s |}.

Definition setDropoffLocation (v : string) (s : AppState) : AppState :=
  {| currentLocation := currentLocation s; pickupLocation := pickupLocation s;
     dropoffLocation := v; currentCycleUsed := currentCycleUsed s;
     logs := logs s; isCalculating := isCalculating s; error := error s;
     routePoints := routePoints s; totalDistance := totalDistance s |}.

Definition setLogs (v : list DayLog) (s : AppState) : AppState :=
  {| currentLocation := currentLocation s; pickupLocation := pickupLocation s;
     dropoffLocation := dropoffLocation s; currentCycleUsed := currentCycleUsed s;
     logs := v; isCalculating := isCalculating s; error := error s;
     routePoints := routePoints s; totalDistance := totalDistance s |}.

Definition setIsCalculating (v : bool) (s : AppState) : AppState :=
  {| currentLocation := currentLocation s; pickupLocation := pickupLocation s;
     dropoffLocation := dropoffLocation s; currentCycleUsed := currentCycleUsed s;
     logs := logs s; isCalculating := v; error := error s;
     routePoints := routePoints s; totalDistance := totalDistance s |}.

Definition setError (v : string) (s : AppState) : AppState :=
  {| currentLocation := currentLocation s; pickupLocation := pickupLocation s;
     dropoffLocation := dropoffLocation s; currentCycleUsed := currentCycleUsed s;
     logs := logs s; isCalculating := isCalculating s; error := v;
     routePoints := routePoints s; totalDistance := totalDistance s |}.

Definition setRoutePoints (v : list LatLng) (s : AppState) : AppState :=
  {| currentLocation := currentLocation s; pickupLocation := pickupLocation s;
     dropoffLocation := dropoffLocation s; currentCycleUsed := currentCycleUsed s;
     logs := logs s; isCalculating := isCalculating s; error := error s;
     routePoints := v; totalDistance := totalDistance s |}.

Definition setTotalDistance (v : option Q) (s : AppState) : AppState :=
  {| currentLocation := currentLocation s; pickupLocation := pickupLocation s;
     dropoffLocation := dropoffLocation s; currentCycleUsed := currentCycleUsed s;
     logs := logs s; isCalculating := isCalculating s; error := error s;
     routePoints := routePoints s; totalDistance := v |}.

(** The four [useRef] cells together with the Leaflet object store they
    point into. *)
Record Page := {
  store : Store;
  mapContainerRef : option Container;
  mapRef : option Map;
  markersRef : gmap string nat;
  polylineRef : option nat
}.

Definition set_store (h : Store) (p : Page) : Page :=
  {| store := h; mapContainerRef := mapContainerRef p; mapRef := mapRef p;
     markersRef := markersRef p; polylineRef := polylineRef p |}.

Definition set_mapRef (m : option Map) (p : Page) : Page :=
  {| store := store p; mapContainerRef := mapContainerRef p; mapRef := m;
     markersRef := markersRef p; polylineRef := polylineRef p |}.

Definition set_markersRef (ms : gmap string nat) (p : Page) : Page :=
  {| store := store p; mapContainerRef := mapContainerRef p; mapRef := mapRef p;
     markersRef := ms; polylineRef := polylineRef p |}.

Definition set_polylineRef (l : option nat) (p : Page) : Page :=
  {| store := store p; mapContainerRef := mapContainerRef p; mapRef := mapRef p;
     markersRef := markersRef p; polylineRef := l |}.

Definition set_mapContainerRef (c : option Container) (p : Page) : Page :=
  {| store := store p; mapContainerRef := c; mapRef := mapRef p;
     markersRef := markersRef p; polylineRef := polylineRef p |}.

(** The page once React has mounted the [div] and before any effect ran. *)
Definition mountedPage : Page :=
  {| store := {| next := 0; objects := ∅ |};
     mapContainerRef := Some {| leaflet_id := None |};
     mapRef := None;
     markersRef := ∅;
     polylineRef := None |}.

(** A method call on [mapRef.current]: a [TypeError] if the ref is null. *)
Definition on_map (f : Map -> Map) (p : Page) : Completion Page :=
  match mapRef p with
  | Some m => Normal (set_mapRef (Some (f m)) p)
  | None => Throws {| message := "Cannot read properties of null" |} p
  end.

(** *** The map-initialisation effect and its cleanup *)

(** The tile layer's two strings (the attribution is an HTML link; the
    quotes around its address are left out here). *)
Definition tile_url : string := "https://{s}.tile.openstreetmap.org/{z}/{x}/{y}.png".
Definition tile_attribution : string :=
  "&copy; <a href=https://www.openstreetmap.org/copyright>OpenStreetMap</a> contributors".

Definition initMap (p : Page) : Completion Page :=
  match mapContainerRef p, mapRef p with
  | None, _ => Normal p
  | Some _, Some _ => Normal p
  | Some c, None =>
      match Leaflet.map c (store p) with
      | inl e => Throws e p
      | inr (m, c', h) =>
          let newMap := setView (418781 # 10000, - (876298 # 10000)) 5 m in
          let '(tile, h') := alloc (TileLayer tile_url tile_attribution) h in
          let newMap := addLayer tile newMap in
          Normal (set_mapRef (Some newMap) (set_mapContainerRef (Some c') (set_store h' p)))
      end
  end.

Definition cleanupMap (p : Page) : Page :=
  match mapRef p with
  | Some _ => set_mapRef None (set_mapContainerRef (remove <$> mapContainerRef p) p)
  | None => p
  end.

(** *** The route effect

    Written after the first revision.  The second revision differs only in
    what the layers look like (a [divIcon] per marker, another colour and an
    opacity for the line) and calls [createMarker] [addMarker]. *)

(** [Object.values(markersRef.current).forEach(marker =>
    mapRef.current.removeLayer(marker))]; the order of the visit does not
    show in the result. *)
Definition removeMarkers (p : Page) : Completion Page :=
  foldl (fun c kv => c >>> on_map (removeLayer kv.2)) (Normal p)
        (map_to_list (markersRef p)).

Definition removePolyline (p : Page) : Completion Page :=
  match polylineRef p with
  | Some l => on_map (removeLayer l) p >>> (fun p => Normal (set_polylineRef None p))
  | None => Normal p
  end.

(** [L.marker(coords).addTo(mapRef.current).bindPopup(popupText)] followed
    by the bookkeeping.  Leaflet registers the layer and then positions
    its icon, which raises a [TypeError] when [coords] is [undefined]. *)
Definition createMarker (locationName : string) (coords : option LatLng)
           (popupText : string) (p : Page) : Completion Page :=
  let '(marker, h) := alloc (Marker coords None) (store p) in
  on_map (addLayer marker) (set_store h p) >>> fun p =>
  match coords with
  | None => Throws {| message := undefined_property_message "lat" |} p
  | Some _ =>
      let p := set_store (bindPopup marker popupText (store p)) p in
      Normal (set_markersRef (<[locationName := marker]> (markersRef p)) p)
  end.

Definition addPolyline (latlngs : list LatLng) (p : Page) : Completion Page :=
  let '(line, h) := alloc (Polyline latlngs "red" 4) (store p) in
  on_map (addLayer line) (set_store h p) >>> fun p =>
  Normal (set_polylineRef (Some line) p).

Definition fitRoute (start pickup dropoff : option LatLng) (p : Page) : Completion Page :=
  match start, pickup, dropoff with
  | Some a, Some b, Some c => on_map (fitBounds [a; b; c] (50, 50)%Z) p
  | _, _, _ => Throws {| message := undefined_property_message "lat" |} p
  end.

Definition routeEffect (s : AppState) (p : Page) : Completion Page :=
  match mapRef p, routePoints s with
  | None, _ => Normal p
  | _, [] => Normal p
  | Some _, _ =>
      let start := routePoints s !! 0%nat in
      let pickup := routePoints s !! 1%nat in
      let dropoff := routePoints s !! 2%nat in
      removeMarkers p >>> (fun p => Normal (set_markersRef ∅ p))
        >>> removePolyline
        >>> createMarker "current" start ("Current Location: " +:+ currentLocation s)
        >>> createMarker "pickup" pickup ("Pickup: " +:+ pickupLocation s)
        >>> createMarker "dropoff" dropoff ("Dropoff: " +:+ dropoffLocation s)
        >>> addPolyline (routePoints s)
        >>> fitRoute start pickup dropoff
  end.

End App.

(** ** The submit handler and the event loop around it *)

Module Lifecycle.
Import Completion Leaflet App.

(** Body of the [POST /api/trip/] request. *)
Record TripRequest := {
  req_currentLocation : string;
  req_pickupLocation : string;
  req_dropoffLocation : string;
  req_currentCycleUsed : Q
}.

(** The parsed JSON object [data].  A property that the handler guards
    with [||] or dereferences further may be absent.  [total_distance] is
    taken to be a number: the handler stores whatever the reply holds there
    without a check, and a reply whose route has a null or missing distance
    is not represented. *)
Record Route := {
  route_points : list LatLng;
  total_distance : Q
}.

Record Payload := {
  data_success : bool;
  data_logs : list DayLog;
  data_route : option Route;
  data_error : option string
}.

(** What the two awaits can deliver: [fetch] rejects, or it resolves with
    a response whose [json()] either rejects or yields an object. *)
Inductive Body :=
| BodyUnreadable (err : JsError)
| BodyJson (data : Payload).

Inductive Reply :=
| FetchRejected (err : JsError)
| Responded (ok : bool) (body : Body).

(** [handleSubmit] up to its first [await]. *)
Definition handleSubmit_begin (s : AppState) : AppState * TripRequest :=
  let s1 := setError EmptyString (setIsCalculating true s) in
  (s1, {| req_currentLocation := currentLocation s;
          req_pickupLocation := pickupLocation s;
          req_dropoffLocation := dropoffLocation s;
          req_currentCycleUsed := currentCycleUsed s |}).

(** The [try] block once the awaited values are known. *)
Definition try_block (reply : Reply) (s : AppState) : Completion AppState :=
  match reply with
  | FetchRejected err => Throws err s
  | Responded _ (BodyUnreadable err) => Throws err s
  | Responded ok (BodyJson data) =>
      if ok && data_success data then
        let s := setLogs (data_logs data) s in
        match data_route data with
        | None => Throws {| message := undefined_property_message "route_points" |} s
        | Some route =>
            let s := setRoutePoints (route_points route) s in
            Normal (setTotalDistance (Some (total_distance route)) s)
        end
      else
        Throws {| message := prop_or_else (data_error data) "Failed to generate logs" |} s
  end.

(** The [catch] clause. *)
Definition catch_block (c : Completion AppState) : AppState :=
  match c with
  | Normal s => s
  | Throws err s =>
      setError (or_else (message err) "Network error. Please check your Django backend.") s
  end.

(** [handleSubmit] from the moment the reply is in: [try], [catch],
    [finally]. *)
Definition handleSubmit_resume (reply : Reply) (s : AppState) : AppState :=
  setIsCalculating false (catch_block (try_block reply s)).

(** A whole submission with nothing happening in between. *)
Definition handleSubmit (reply : Reply) (s : AppState) : AppState :=
  handleSubmit_resume reply (fst (handleSubmit_begin s)).

(** The reply signals success: [response.ok && data.success]. *)
Definition signals_success (reply : Reply) : bool :=
  match reply with
  | Responded ok (BodyJson data) => ok && data_success data
  | _ => false
  end.

(** What is on display of a trip result. *)
Definition displayed (s : AppState) : list DayLog * list LatLng * option Q :=
  (logs s, routePoints s, totalDistance s).

Definition payload_result (data : Payload) (route : Route) : list DayLog * list LatLng * option Q :=
  (data_logs data, route_points route, Some (total_distance route)).

(** *** The event loop

    The browser runs one handler at a time.  A submission that awaits its
    reply is a pending continuation; the service answers pending calls in
    any order. *)
Record World := {
  app : AppState;
  pending : list TripRequest
}.

Inductive Event :=
| Submit
| Settle (k : nat) (reply : Reply)
| EditCurrent (v : string)
| EditPickup (v : string)
| EditDropoff (v : string).

Definition initialWorld : World := {| app := initialState; pending := [] |}.

(** The handlers as written: [handleSubmit] itself checks nothing. *)
Definition step (w : World) (e : Event) : World :=
  match e with
  | Submit =>
      let '(s, req) := handleSubmit_begin (app w) in
      {| app := s; pending := pending w ++ [req] |}
  | Settle k reply =>
      match pending w !! k with
      | Some _ => {| app := handleSubmit_resume reply (app w); pending := delete k (pending w) |}
      | None => w
      end
  | EditCurrent v => {| app := setCurrentLocation v (app w); pending := pending w |}
  | EditPickup v => {| app := setPickupLocation v (app w); pending := pending w |}
  | EditDropoff v => {| app := setDropoffLocation v (app w); pending := pending w |}
  end.

Definition run (w : World) (es : list Event) : World := foldl step w es.

(** What the rendered form lets through: the submit button carries
    [disabled={isCalculating}], and a reply exists only for a pending call. *)
Definition form_allows (w : World) (e : Event) : bool :=
  match e with
  | Submit => negb (isCalculating (app w))
  | Settle k _ => bool_decide (k < length (pending w))%nat
  | _ => true
  end.

Inductive form_reachable : World -> Prop :=
| reach_init : form_reachable initialWorld
| reach_step w e :
    form_reachable w -> form_allows w e = true -> form_reachable (step w e).

End Lifecycle.

Import Completion Leaflet App Lifecycle.

(** * Vocabulary of the statements

    Nothing below is code of the component: these are the sums, sets and
    sample values the properties are phrased with. *)

(** ** Compliance *)

(** The sum the banner is meant to show, written as a plain sum over the
    days: [Σ (total_driving + total_on_duty)]. *)
Fixpoint duty_hours_sum (logs : list DayLog) : Q :=
  match logs with
  | [] => 0
  | d :: rest => (total_driving d + total_on_duty d) + duty_hours_sum rest
  end.

(** A day log with its sleeper-berth and off-duty totals overwritten. *)
Definition with_rest_hours (sleeper off : Q) (d : DayLog) : DayLog :=
  {| day := day d; entries := entries d;
     total_driving := total_driving d; total_on_duty := total_on_duty d;
     total_sleeper := sleeper; total_off_duty := off |}.

Definition sample_day (n : Z) (driving on_duty : Q) : DayLog :=
  {| day := n; entries := [];
     total_driving := driving; total_on_duty := on_duty;
     total_sleeper := 10; total_off_duty := 14 - driving - on_duty |}.

(** ** Replies *)

(** The message a failing reply leaves in the banner. *)
Definition failure_message (reply : Reply) : string :=
  match reply with
  | FetchRejected err | Responded _ (BodyUnreadable err) =>
      or_else (message err) "Network error. Please check your Django backend."
  | Responded _ (BodyJson data) =>
      prop_or_else (data_error data) "Failed to generate logs"
  end.

Definition sample_route : Route :=
  {| route_points := [(418781 # 10000, - (876298 # 10000));
                      (386270 # 10000, - (901994 # 10000));
                      (337490 # 10000, - (843880 # 10000))];
     total_distance := 770 |}.

Definition sample_payload : Payload :=
  {| data_success := true;
     data_logs := [sample_day 1 11 3];
     data_route := Some sample_route;
     data_error := None |}.

Definition sample_failure : Reply :=
  Responded false
    (BodyJson {| data_success := false; data_logs := []; data_route := None;
                 data_error := Some "Could not geocode pickup"%string |}).

(** A payload that says [success] and brings logs but no [route]. *)
Definition routeless_payload : Payload :=
  {| data_success := true;
     data_logs := [sample_day 1 5 1];
     data_route := None;
     data_error := None |}.

Definition first_payload : Payload :=
  {| data_success := true;
     data_logs := [sample_day 1 5 1];
     data_route := Some {| route_points := [(41, -87); (38, -90); (33, -84)];
                           total_distance := 300 |};
     data_error := None |}.

Definition second_payload : Payload :=
  {| data_success := true;
     data_logs := [sample_day 1 11 3; sample_day 2 4 1];
     data_route := Some {| route_points := [(41, -87); (39, -86); (29, -95)];
                           total_distance := 1100 |};
     data_error := None |}.

(** Two calls of [handleSubmit], the second issued (with an edited pickup)
    while the first is pending; the second is answered first. *)
Definition overlapping_run : list Event :=
  [Submit; EditPickup "Indianapolis, IN"; Submit;
   Settle 1 (Responded true (BodyJson second_payload));
   Settle 0 (Responded true (BodyJson first_payload))].

(** ** Layers on the map *)

(** The page with the given stamps taken off the map. *)
Definition clear_layers (X : gset nat) (p : Page) : Page :=
  set_mapRef ((fun m => {| map_layers := map_layers m ∖ X; map_view := map_view m |})
                <$> mapRef p) p.

(** The stamps recorded in [markersRef] and in [polylineRef]. *)
Definition tracked_markers (p : Page) : gset nat :=
  list_to_set ((map_to_list (markersRef p)).*2).

Definition tracked_polyline (p : Page) : gset nat :=
  match polylineRef p with Some l => {[l]} | None => ∅ end.

(** The four stamps handed out by one run of the effect. *)
Definition fresh_markers (n : nat) : gset nat := {[n; S n; S (S n)]}.

Definition fresh_polyline (n : nat) : gset nat := {[S (S (S n))]}.

(** What stays on the map across a run: the layers the refs do not track. *)
Definition untracked (p : Page) (m : Map) : gset nat :=
  (map_layers m ∖ tracked_markers p) ∖ tracked_polyline p.

(** What the effect leaves behind for a route that starts with the points
    [a], [b], [c], run on a page whose map is [m]: four fresh objects
    replace everything that was tracked. *)
Definition rebuilt (s : AppState) (a b c : LatLng) (m : Map) (p : Page) : Page :=
  let n := next (store p) in
  {| store :=
       {| next := S (S (S (S n)));
          objects :=
            <[S (S (S n)) := Polyline (routePoints s) "red" 4]>
              (<[S (S n) := Marker (Some c) (Some ("Dropoff: " +:+ dropoffLocation s))]>
                 (<[S n := Marker (Some b) (Some ("Pickup: " +:+ pickupLocation s))]>
                    (<[n := Marker (Some a)
                              (Some ("Current Location: " +:+ currentLocation s))]>
                       (objects (store p))))) |};
     mapContainerRef := mapContainerRef p;
     mapRef :=
       Some {| map_layers :=
                 {[S (S (S n))]} ∪ ({[S (S n)]} ∪ ({[S n]} ∪ ({[n]} ∪
                   ((map_layers m ∖ tracked_markers p) ∖ tracked_polyline p))));
               map_view := Some (FitBounds [a; b; c] (50, 50)%Z) |};
     markersRef := <["dropoff" := S (S n)]> (<["pickup" := S n]> (<["current" := n]> ∅));
     polylineRef := Some (S (S (S n))) |}.

(** The map after a run, said in those terms. *)
Definition rebuilt_map (a b c : LatLng) (m : Map) (p : Page) : Map :=
  {| map_layers := fresh_polyline (next (store p))
                     ∪ (fresh_markers (next (store p)) ∪ untracked p m);
     map_view := Some (FitBounds [a; b; c] (50, 50)%Z) |}.

(** Every stamp the refs hold and every stamp on the map is older than the
    allocation pointer, and every marker or polyline on the map is one the
    refs know about. *)
Definition page_wf (p : Page) : Prop :=
  (forall i, i ∈ tracked_markers p ∪ tracked_polyline p -> (i < next (store p))%nat)
  /\ forall m, mapRef p = Some m ->
       (forall i, i ∈ map_layers m -> (i < next (store p))%nat)
       /\ (forall i, i ∈ map_layers m -> is_marker (store p) i = true ->
                     i ∈ tracked_markers p)
       /\ (forall i, i ∈ map_layers m -> is_polyline (store p) i = true ->
                     i ∈ tracked_polyline p).

(** The page after the first run of the initialisation effect. *)
Definition mappedPage : Page := state_of (initMap mountedPage).

Definition with_route (r : list LatLng) (s : AppState) : AppState := setRoutePoints r s.

Definition three_points : list LatLng :=
  [(418781 # 10000, - (876298 # 10000));
   (386270 # 10000, - (901994 # 10000));
   (337490 # 10000, - (843880 # 10000))].

Definition four_points : list LatLng := three_points ++ [(25, -80)].

(** * Further parts of the component *)

(** ** The life of the page

    React runs the initialisation effect at mount, its cleanup at unmount,
    and the route effect after every render in which the route or a label
    changed. *)

Inductive PageEvent :=
| RunInit
| RunCleanup
| RunRoute (s : AppState).

Definition page_step (p : Page) (e : PageEvent) : Completion Page :=
  match e with
  | RunInit => initMap p
  | RunCleanup => Normal (cleanupMap p)
  | RunRoute s => routeEffect s p
  end.

Definition page_run (p : Page) (es : list PageEvent) : Completion Page :=
  foldl (fun c e => c >>> (fun q => page_step q e)) (Normal p) es.

(** A route the service is meant to send or the initial empty one: no
    point at all, or at least three. *)
Definition drawable (e : PageEvent) : bool :=
  match e with
  | RunRoute s =>
      match routePoints s with
      | [_] | [_; _] => false
      | _ => true
      end
  | _ => true
  end.

(** The container carries a stamp exactly while [mapRef] holds a map. *)
Definition container_agrees (p : Page) : Prop :=
  forall c, mapContainerRef p = Some c -> (leaflet_id c = None <-> mapRef p = None).

(** The map shows no route at all, or one complete route. *)
Definition layers_tidy (p : Page) : Prop :=
  forall m, mapRef p = Some m ->
    (markers_on (store p) m = ∅ /\ polylines_on (store p) m = ∅)
    \/ (size (markers_on (store p) m) = 3%nat /\ size (polylines_on (store p) m) = 1%nat).

(** ** What the render reads off the state *)

(** [{error && (...)}]: the banner exists for a non-empty error only. *)
Definition error_banner (s : AppState) : option string :=
  match error s with EmptyString => None | msg => Some msg end.

(** A settle event whose reply signals success. *)
Definition is_successful_settle (e : Event) : bool :=
  match e with Settle _ reply => signals_success reply | _ => false end.

(** ** Sample runs *)

Definition sample_page_life : list PageEvent :=
  [RunInit; RunRoute (with_route three_points initialState); RunCleanup; RunInit;
   RunRoute (with_route four_points initialState); RunRoute initialState].

(** The role, the position in the route and the popup prefix of the three
    markers, as the three calls of [createMarker] pair them. *)
Definition role_point (s : AppState) (role : string) : option LatLng :=
  if decide (role = "current"%string) then routePoints s !! 0%nat
  else if decide (role = "pickup"%string) then routePoints s !! 1%nat
  else if decide (role = "dropoff"%string) then routePoints s !! 2%nat
  else None.

Definition role_popup (s : AppState) (role : string) : string :=
  if decide (role = "current"%string) then "Current Location: " +:+ currentLocation s
  else if decide (role = "pickup"%string) then "Pickup: " +:+ pickupLocation s
  else "Dropoff: " +:+ dropoffLocation s.

Definition roles : list string := ["current"; "pickup"; "dropoff"]%string.

(** The per-day total printed on each log card:
    [(total_driving + total_on_duty + total_sleeper + total_off_duty).toFixed(1)]. *)
Definition daily_total_text (d : DayLog) : string :=
  fixed1_text (toFixed1 (dailyTotal d)).

(** * Properties *)

Example toFixed1_examples :
  toFixed1 (35 # 2) = 175%Z /\ toFixed1 (1 # 20) = 1%Z /\ toFixed1 (-(1 # 20)) = (-1)%Z
  /\ fixed1_text 175 = "17.5"%string /\ fixed1_text 7500 = "750.0"%string
  /\ fixed1_text (-5) = "-0.5"%string.
Proof. repeat split; reflexivity. Qed.

(** ** Compliance arithmetic *)

Section ComplianceFacts.

Lemma reduce_from_acc (logs : list DayLog) (acc : Q) :
  fold_left (fun acc day => acc + total_driving day + total_on_duty day) logs acc
  == acc + duty_hours_sum logs.
Proof.
  revert acc. induction logs as [|d rest IH]; intros acc; simpl.
  - ring.
  - rewrite IH. ring.
Qed.

Lemma reduce_ignores_rest (sleeper off : Q) (logs : list DayLog) (acc : Q) :
  fold_left (fun acc day => acc + total_driving day + total_on_duty day)
            (List.map (with_rest_hours sleeper off) logs) acc
  = fold_left (fun acc day => acc + total_driving day + total_on_duty day) logs acc.
Proof.
  revert acc. induction logs as [|d rest IH]; intros acc; simpl; [reflexivity|].
  apply IH.
Qed.

Lemma toFixed1_comp (x y : Q) : x == y -> toFixed1 x = toFixed1 y.
Proof.
  intros E. unfold toFixed1, round_half_up.
  destruct (Qlt_le_dec x 0) as [Hx|Hx], (Qlt_le_dec y 0) as [Hy|Hy].
  - f_equal. apply Qfloor_comp. rewrite E. reflexivity.
  - exfalso. rewrite E in Hx. exact (Qlt_not_le _ _ Hx Hy).
  - exfalso. rewrite <- E in Hy. exact (Qlt_not_le _ _ Hy Hx).
  - apply Qfloor_comp. rewrite E. reflexivity.
Qed.

Lemma remaining_nonneg (used trip : Q) : 0 <= remainingCycleHours used trip.
Proof. unfold remainingCycleHours. apply Q.le_max_l. Qed.

Lemma remaining_zero_iff (used trip : Q) :
  remainingCycleHours used trip == 0 <-> 70 <= used + trip.
Proof.
  unfold remainingCycleHours.
  destruct (Q.max_spec 0 (70 - (used + trip))) as [[Hlt ->]|[Hle ->]]; split; intros H; lra.
Qed.

End ComplianceFacts.

(** C4. For every list of day logs the trip total computed by the banner's
    [reduce] is the sum over the days of driving plus on-duty hours;
    overwriting the sleeper-berth and off-duty totals of every day does not
    change it; for the empty list it is 0 (and both revisions print 0.0). *)
Theorem totalTripHours_is_duty_sum (logs : list DayLog) :
  totalTripHours logs == duty_hours_sum logs
  /\ (forall sleeper off,
         totalTripHours (List.map (with_rest_hours sleeper off) logs) = totalTripHours logs)
  /\ totalTripHours [] = 0
  /\ banner_trip_hours [] = 0%Z
  /\ calculateTotalTripHours [] = 0%Z.
Proof.
  split; [|split; [|repeat split]].
  - unfold totalTripHours. rewrite reduce_from_acc. ring.
  - intros sleeper off. apply reduce_ignores_rest.
Qed.

(** C3. The remaining-cycle expression is [max(0, 70 - (used + trip))]; it
    is never negative, it is 0 exactly when [used + trip >= 70], and with
    22.5 hours used and logs whose driving and on-duty hours sum to 30 it is
    17.5, which both revisions print as 17.5. *)
Theorem remainingCycleHours_formula :
  (forall used trip : Q,
      remainingCycleHours used trip == Qmax 0 (70 - (used + trip))
      /\ 0 <= remainingCycleHours used trip
      /\ (remainingCycleHours used trip == 0 <-> 70 <= used + trip))
  /\ (forall logs : list DayLog,
         duty_hours_sum logs == 30 ->
         remainingCycleHours (45 # 2) (totalTripHours logs) == 35 # 2
         /\ banner_remaining_cycle (45 # 2) logs = 175%Z
         /\ calculateRemainingCycle (45 # 2) logs = 175%Z).
Proof.
  split.
  - intros used trip. split; [reflexivity|]. split.
    + apply remaining_nonneg.
    + apply remaining_zero_iff.
  - intros logs Hsum.
    assert (Htrip : totalTripHours logs == 30).
    { unfold totalTripHours. rewrite reduce_from_acc, Hsum. ring. }
    assert (Hrem : forall t, t == 30 -> remainingCycleHours (45 # 2) t == 35 # 2).
    { intros t Ht. unfold remainingCycleHours.
      destruct (Q.max_spec 0 (70 - ((45 # 2) + t))) as [[_ ->]|[Hle ->]]; lra. }
    split; [exact (Hrem _ Htrip)|]. split.
    + unfold banner_remaining_cycle.
      rewrite (toFixed1_comp _ (35 # 2) (Hrem _ Htrip)). reflexivity.
    + unfold calculateRemainingCycle, calculateTotalTripHours.
      rewrite (toFixed1_comp _ 30 Htrip).
      rewrite (toFixed1_comp _ (35 # 2)); [reflexivity|].
      apply Hrem. reflexivity.
Qed.

Lemma remainingCycleHours_formula_witness :
  remainingCycleHours (45 # 2)
    (totalTripHours [sample_day 1 11 3; sample_day 2 11 (5 # 2); sample_day 3 (5 # 2) 0])
  == 35 # 2.
Proof.
  apply (proj2 remainingCycleHours_formula
           [sample_day 1 11 3; sample_day 2 11 (5 # 2); sample_day 3 (5 # 2) 0]).
  reflexivity.
Defined.

(** ** The distance / driving-time line *)

Section EstimateLine.







End EstimateLine.

(** ** The submit handler *)

Section HandlerFacts.

Lemma or_else_nonempty (a b : string) : a <> EmptyString -> or_else a b = a.
Proof. destruct a; [congruence | reflexivity]. Qed.

Lemma or_else_fallback (a b : string) : b <> EmptyString -> or_else a b <> EmptyString.
Proof. destruct a; simpl; [auto | discriminate]. Qed.

Lemma prop_or_else_fallback (a : option string) (b : string) :
  b <> EmptyString -> prop_or_else a b <> EmptyString.
Proof. destruct a; simpl; [apply or_else_fallback | auto]. Qed.

Lemma or_else_idem (a b c : string) :
  b <> EmptyString -> or_else (or_else a b) c = or_else a b.
Proof. intros H. apply or_else_nonempty, or_else_fallback, H. Qed.

Lemma failure_message_nonempty (reply : Reply) : failure_message reply <> EmptyString.
Proof.
  destruct reply as [err|ok [err|data]]; simpl.
  - apply or_else_fallback. discriminate.
  - apply or_else_fallback. discriminate.
  - apply prop_or_else_fallback. discriminate.
Qed.

(** A reply that does not signal success only writes the banner and the
    in-flight flag. *)
Lemma resume_on_failure (reply : Reply) (s : AppState) :
  signals_success reply = false ->
  handleSubmit_resume reply s = setIsCalculating false (setError (failure_message reply) s).
Proof.
  intros Hf. unfold handleSubmit_resume.
  destruct reply as [err|ok [err|data]]; simpl in *; try reflexivity.
  rewrite Hf. simpl.
  rewrite or_else_nonempty; [reflexivity|].
  apply prop_or_else_fallback. discriminate.
Qed.

(** A well-formed successful reply stores its three parts together. *)
Lemma resume_on_success (data : Payload) (route : Route) (s : AppState) :
  data_success data = true -> data_route data = Some route ->
  handleSubmit_resume (Responded true (BodyJson data)) s
  = setIsCalculating false
      (setTotalDistance (Some (total_distance route))
         (setRoutePoints (route_points route) (setLogs (data_logs data) s))).
Proof.
  intros Hs Hr. unfold handleSubmit_resume. simpl. rewrite Hs, Hr. reflexivity.
Qed.

Lemma resume_not_calculating (reply : Reply) (s : AppState) :
  isCalculating (handleSubmit_resume reply s) = false.
Proof. reflexivity. Qed.

(** Through the form there is never more than one call pending, and the
    in-flight flag is up exactly while one is. *)
Lemma form_invariant (w : World) :
  form_reachable w ->
  (length (pending w) <= 1)%nat
  /\ (isCalculating (app w) = true <-> pending w <> []).
Proof.
  induction 1 as [|w e Hw [IHlen IHflag] Hallow].
  - simpl. split; [lia|]. split; [discriminate | congruence].
  - destruct e as [|k reply|v|v|v]; simpl in *.
    + apply negb_true_iff in Hallow.
      assert (Hnil : pending w = []).
      { destruct (pending w) as [|r rest] eqn:E; [reflexivity|].
        exfalso. assert (isCalculating (app w) = true) by (apply IHflag; discriminate).
        congruence. }
      rewrite Hnil. simpl. split; [lia|]. split; [discriminate | reflexivity].
    + apply bool_decide_eq_true in Hallow.
      destruct (pending w) as [|r [|r' rest]] eqn:E; simpl in *; try lia.
      assert (k = 0)%nat as -> by lia. simpl.
      split; [lia|]. split; [discriminate | congruence].
    + split; [exact IHlen | exact IHflag].
    + split; [exact IHlen | exact IHflag].
    + split; [exact IHlen | exact IHflag].
Qed.

End HandlerFacts.

(** C10. Whatever the reply (success, a failure reported by the service, a
    rejected fetch, an unreadable body), [handleSubmit] ends with
    [isCalculating] false, so the submit button is enabled again; and in
    every state reachable through the form with no call pending the flag is
    down. *)
Theorem handleSubmit_always_clears_isCalculating :
  (forall (reply : Reply) (s : AppState),
      isCalculating (handleSubmit_resume reply s) = false
      /\ isCalculating (handleSubmit reply s) = false)
  /\ (forall (reply : Reply) (w : World) (k : nat),
         (k < length (pending w))%nat ->
         form_allows (step w (Settle k reply)) Submit = true)
  /\ (forall w : World,
         form_reachable w -> pending w = [] -> isCalculating (app w) = false).
Proof.
  split; [|split].
  - intros reply s. split; reflexivity.
  - intros reply w k Hk. simpl.
    destruct (pending w !! k) as [r|] eqn:E; [reflexivity|].
    apply lookup_ge_None in E. lia.
  - intros w Hw Hnil. destruct (form_invariant w Hw) as [_ Hflag].
    destruct (isCalculating (app w)); [|reflexivity].
    exfalso. apply Hflag; [reflexivity | exact Hnil].
Qed.

Lemma handleSubmit_always_clears_isCalculating_witness :
  form_allows (step (step initialWorld Submit) (Settle 0 sample_failure)) Submit = true
  /\ isCalculating (app (step (step initialWorld Submit) (Settle 0 sample_failure))) = false.
Proof.
  split.
  - apply (proj1 (proj2 handleSubmit_always_clears_isCalculating)
             sample_failure (step initialWorld Submit) 0%nat).
    simpl. lia.
  - apply (proj2 (proj2 handleSubmit_always_clears_isCalculating)).
    + apply reach_step; [apply reach_step; [apply reach_init | reflexivity] | reflexivity].
    + reflexivity.
Defined.

(** X15. A submission whose reply does not signal success (rejected fetch,
    unreadable body, non-2xx status, or [success] false) leaves logs, route
    points and total distance as they were, whatever they were, in
    particular those stored by an earlier success, and writes only the
    error message, which replaces the previous one. *)
Theorem failed_submission_keeps_last_result (reply : Reply) (s : AppState) :
  signals_success reply = false ->
  handleSubmit reply s = setIsCalculating false (setError (failure_message reply) s)
  /\ displayed (handleSubmit reply s) = displayed s
  /\ error (handleSubmit reply s) = failure_message reply
  /\ failure_message reply <> EmptyString
  /\ (forall (data : Payload) (route : Route) (s0 : AppState),
         data_success data = true -> data_route data = Some route ->
         s = handleSubmit (Responded true (BodyJson data)) s0 ->
         displayed (handleSubmit reply s) = payload_result data route).
Proof.
  intros Hf.
  assert (E : handleSubmit reply s
              = setIsCalculating false (setError (failure_message reply) s)).
  { unfold handleSubmit. simpl. rewrite (resume_on_failure _ _ Hf).
    destruct s; reflexivity. }
  split; [exact E|]. rewrite E.
  split; [reflexivity|]. split; [reflexivity|].
  split; [apply failure_message_nonempty|].
  intros data route s0 Hs Hr ->.
  unfold handleSubmit. simpl. rewrite (resume_on_success _ _ _ Hs Hr). reflexivity.
Qed.

Lemma failed_submission_keeps_last_result_witness :
  displayed (handleSubmit sample_failure
               (handleSubmit (Responded true (BodyJson sample_payload)) initialState))
  = payload_result sample_payload sample_route
  /\ error (handleSubmit sample_failure
              (handleSubmit (Responded true (BodyJson sample_payload)) initialState))
     = "Could not geocode pickup"%string.
Proof.
  pose proof (failed_submission_keeps_last_result sample_failure
                (handleSubmit (Responded true (BodyJson sample_payload)) initialState)
                eq_refl) as (_ & _ & Herr & _ & Hprev).
  split.
  - exact (Hprev sample_payload sample_route initialState eq_refl eq_refl eq_refl).
  - exact Herr.
Defined.

(** C7, as stated, fails: a reply with a non-2xx status whose body is not
    JSON puts the parser's own message in the banner, which is neither a
    text sent by the service nor one of the two fallback texts. *)
Lemma non_json_error_reply_shows_parser_text :
  let reply :=
    Responded false (BodyUnreadable {| message := "Unexpected token < in JSON at position 0" |}) in
  signals_success reply = false
  /\ error (handleSubmit reply initialState) = "Unexpected token < in JSON at position 0"%string
  /\ error (handleSubmit reply initialState) <> "Failed to generate logs"%string
  /\ error (handleSubmit reply initialState)
     <> "Network error. Please check your Django backend."%string.
Proof. repeat split; discriminate. Qed.

(** C7, amended. A reply changes the stored result only if the status is
    2xx and the payload's [success] is true, and a payload that brings its
    route then has logs, route points and distance stored together, the
    banner left alone.  Every other reply stores nothing.  With a parsed
    body the banner gets the service's error text when there is a non-empty
    one and "Failed to generate logs" otherwise; when [fetch] or
    [response.json()] rejects, whatever the status, the banner gets the
    thrown error's own message, and the network fallback text only when
    that message is empty. *)
Theorem reply_applied_only_on_ok_and_success :
  (forall (reply : Reply) (s : AppState),
      displayed (handleSubmit_resume reply s) <> displayed s ->
      signals_success reply = true)
  /\ (forall (ok : bool) (data : Payload) (s : AppState),
         signals_success (Responded ok (BodyJson data)) = (ok && data_success data)%bool)
  /\ (forall (data : Payload) (route : Route) (s : AppState),
         data_success data = true -> data_route data = Some route ->
         handleSubmit_resume (Responded true (BodyJson data)) s
         = setIsCalculating false
             (setTotalDistance (Some (total_distance route))
                (setRoutePoints (route_points route) (setLogs (data_logs data) s)))
         /\ displayed (handleSubmit_resume (Responded true (BodyJson data)) s)
            = payload_result data route
         /\ error (handleSubmit_resume (Responded true (BodyJson data)) s) = error s)
  /\ (forall (ok : bool) (data : Payload) (s : AppState),
         (ok && data_success data)%bool = false ->
         handleSubmit_resume (Responded ok (BodyJson data)) s
         = setIsCalculating false
             (setError (prop_or_else (data_error data) "Failed to generate logs") s)
         /\ displayed (handleSubmit_resume (Responded ok (BodyJson data)) s) = displayed s
         /\ (forall msg, data_error data = Some msg -> msg <> EmptyString ->
                         error (handleSubmit_resume (Responded ok (BodyJson data)) s) = msg)
         /\ (data_error data = None \/ data_error data = Some EmptyString ->
             error (handleSubmit_resume (Responded ok (BodyJson data)) s)
             = "Failed to generate logs"%string))
  /\ (forall (err : JsError) (s : AppState),
         (forall ok : bool,
             handleSubmit_resume (Responded ok (BodyUnreadable err)) s
             = setIsCalculating false
                 (setError (or_else (message err)
                                    "Network error. Please check your Django backend.") s))
         /\ handleSubmit_resume (FetchRejected err) s
            = setIsCalculating false
                (setError (or_else (message err)
                                   "Network error. Please check your Django backend.") s)
         /\ (message err <> EmptyString ->
             (forall ok : bool,
                 error (handleSubmit_resume (Responded ok (BodyUnreadable err)) s)
                 = message err)
             /\ error (handleSubmit_resume (FetchRejected err) s) = message err)
         /\ (message err = EmptyString ->
             (forall ok : bool,
                 error (handleSubmit_resume (Responded ok (BodyUnreadable err)) s)
                 = "Network error. Please check your Django backend."%string)
             /\ error (handleSubmit_resume (FetchRejected err) s)
                = "Network error. Please check your Django backend."%string)).
Proof.
  split; [|split; [|split; [|split]]].
  - intros reply s Hchanged.
    destruct (signals_success reply) eqn:E; [reflexivity|].
    exfalso. apply Hchanged. rewrite (resume_on_failure _ _ E). reflexivity.
  - reflexivity.
  - intros data route s Hs Hr. rewrite (resume_on_success _ _ _ Hs Hr).
    repeat split.
  - intros ok data s Hf.
    rewrite (resume_on_failure (Responded ok (BodyJson data)) s Hf).
    split; [reflexivity|]. split; [reflexivity|]. split.
    + intros msg Hm Hne. simpl. rewrite Hm. simpl. apply or_else_nonempty, Hne.
    + intros [Hm|Hm]; simpl; rewrite Hm; reflexivity.
  - intros err s. split; [intros ok; reflexivity|]. split; [reflexivity|]. split.
    + intros Hne. split; [intros ok|]; cbn; apply or_else_nonempty, Hne.
    + intros He. split; [intros ok|]; cbn; rewrite He; reflexivity.
Qed.

Lemma reply_applied_only_on_ok_and_success_witness :
  signals_success (Responded true (BodyJson sample_payload)) = true
  /\ displayed (handleSubmit_resume (Responded true (BodyJson sample_payload)) initialState)
     = payload_result sample_payload sample_route
  /\ error (handleSubmit_resume sample_failure initialState)
     = "Could not geocode pickup"%string.
Proof.
  destruct reply_applied_only_on_ok_and_success as (Honly & _ & Hok & Hfail & _).
  split; [|split].
  - apply (Honly _ initialState). discriminate.
  - exact (proj1 (proj2 (Hok sample_payload sample_route initialState eq_refl eq_refl))).
  - destruct (Hfail false _ initialState
                (eq_refl : (false && data_success
                   {| data_success := false; data_logs := []; data_route := None;
                      data_error := Some "Could not geocode pickup"%string |})%bool = false))
      as (_ & _ & Hmsg & _).
    apply Hmsg; [reflexivity | discriminate].
Defined.

(** A payload that says [success] but carries no [route]: the logs are
    already stored when the read of [route_points] throws. *)
Remark success_without_route_stores_logs :
  let data := {| data_success := true; data_logs := [sample_day 1 11 3];
                 data_route := None; data_error := None |} in
  let s := handleSubmit (Responded true (BodyJson data)) initialState in
  logs s = [sample_day 1 11 3] /\ routePoints s = [] /\ totalDistance s = None
  /\ error s = undefined_property_message "route_points".
Proof. repeat split. Qed.

(** C6. The handler breaks the rule for one kind of reply: when the status
    is 2xx and [success] is true but the payload has no [route], the logs
    are stored before the read of [route_points] throws, so the submission
    ends with an error in the banner, the logs of the new reply and the
    route points and distance of the old result. *)
Theorem success_reply_without_route_replaces_logs (data : Payload) (s : AppState) :
  data_success data = true -> data_route data = None ->
  error (handleSubmit (Responded true (BodyJson data)) s)
  = undefined_property_message "route_points"
  /\ error (handleSubmit (Responded true (BodyJson data)) s) <> EmptyString
  /\ isCalculating (handleSubmit (Responded true (BodyJson data)) s) = false
  /\ logs (handleSubmit (Responded true (BodyJson data)) s) = data_logs data
  /\ routePoints (handleSubmit (Responded true (BodyJson data)) s) = routePoints s
  /\ totalDistance (handleSubmit (Responded true (BodyJson data)) s) = totalDistance s.
Proof.
  intros Hs Hr. unfold handleSubmit, handleSubmit_resume. cbn.
  rewrite Hs, Hr. cbn. repeat split. discriminate.
Qed.

Lemma success_reply_without_route_replaces_logs_witness :
  error (handleSubmit (Responded true (BodyJson routeless_payload))
           (handleSubmit (Responded true (BodyJson sample_payload)) initialState))
  <> EmptyString
  /\ logs (handleSubmit (Responded true (BodyJson routeless_payload))
             (handleSubmit (Responded true (BodyJson sample_payload)) initialState))
     = [sample_day 1 5 1]
  /\ routePoints (handleSubmit (Responded true (BodyJson routeless_payload))
                    (handleSubmit (Responded true (BodyJson sample_payload)) initialState))
     = route_points sample_route.
Proof.
  destruct (success_reply_without_route_replaces_logs routeless_payload
              (handleSubmit (Responded true (BodyJson sample_payload)) initialState)
              eq_refl eq_refl) as (_ & Hne & _ & Hlogs & Hpts & _).
  split; [exact Hne|]. split; [exact Hlogs | exact Hpts].
Defined.

(** ** Overlapping submissions *)

(** C1, as stated, fails: after [overlapping_run] the display shows the
    first submission's payload, not the second's. *)
Lemma stale_reply_is_displayed :
  let w := run initialWorld overlapping_run in
  pending w = []
  /\ displayed (app w)
     = (data_logs first_payload, [(41, -87); (38, -90); (33, -84)], Some 300)
  /\ displayed (app w)
     <> (data_logs second_payload, [(41, -87); (39, -86); (29, -95)], Some 1100).
Proof. split; [reflexivity|]. split; [reflexivity | discriminate]. Qed.

(** C1, amended. [handleSubmit] applies a successful reply when it arrives,
    whichever pending call it answers, so the display always shows the
    payload of the reply that arrived last; overlap is kept out at the form
    instead: the submit button is disabled while [isCalculating], so in
    every state reachable through the form at most one call is pending, and
    a submit is let through only when none is. *)
Theorem last_arrived_reply_is_displayed :
  (forall (w : World) (k : nat) (data : Payload) (route : Route),
      (k < length (pending w))%nat ->
      data_success data = true -> data_route data = Some route ->
      displayed (app (step w (Settle k (Responded true (BodyJson data)))))
      = payload_result data route)
  /\ (forall w : World,
         form_reachable w ->
         (length (pending w) <= 1)%nat
         /\ (form_allows w Submit = true <-> pending w = [])).
Proof.
  split.
  - intros w k data route Hk Hs Hr. simpl.
    destruct (pending w !! k) as [r|] eqn:E.
    + simpl. rewrite (resume_on_success _ _ _ Hs Hr). reflexivity.
    + apply lookup_ge_None in E. lia.
  - intros w Hw. destruct (form_invariant w Hw) as [Hlen Hflag].
    split; [exact Hlen|]. simpl. rewrite negb_true_iff. split.
    + intros Hidle. destruct (pending w) as [|r rest]; [reflexivity|].
      exfalso. assert (isCalculating (app w) = true) by (apply Hflag; discriminate).
      congruence.
    + intros Hnil. destruct (isCalculating (app w)); [|reflexivity].
      exfalso. apply Hflag; [reflexivity | exact Hnil].
Qed.

Lemma last_arrived_reply_is_displayed_witness :
  displayed (app (step (step initialWorld Submit)
                       (Settle 0 (Responded true (BodyJson sample_payload)))))
  = payload_result sample_payload sample_route
  /\ (length (pending (step initialWorld Submit)) <= 1)%nat.
Proof.
  split.
  - apply (proj1 last_arrived_reply_is_displayed (step initialWorld Submit) 0%nat
             sample_payload sample_route); [simpl; lia | reflexivity | reflexivity].
  - apply (proj2 last_arrived_reply_is_displayed (step initialWorld Submit)).
    apply reach_step; [apply reach_init | reflexivity].
Defined.

(** ** The route effect *)

Section RouteFacts.

Lemma clear_layers_twice (X Y : gset nat) (p : Page) :
  clear_layers Y (clear_layers X p) = clear_layers (X ∪ Y) p.
Proof.
  destruct p as [h c [[ls v]|] mk pl]; unfold clear_layers; simpl; [|reflexivity].
  unfold set_mapRef; simpl. do 3 f_equal. apply difference_difference_l_L.
Qed.

Lemma clear_layers_none (p : Page) : clear_layers ∅ p = p.
Proof.
  destruct p as [h c [[ls v]|] mk pl]; unfold clear_layers; simpl; [|reflexivity].
  unfold set_mapRef; simpl. do 3 f_equal. apply difference_empty_L.
Qed.

Lemma remove_each (l : list (string * nat)) (p : Page) :
  is_Some (mapRef p) ->
  foldl (fun c kv => c >>> on_map (removeLayer kv.2)) (Normal p) l
  = Normal (clear_layers (list_to_set (l.*2)) p).
Proof.
  revert p. induction l as [|[k i] l IH]; intros p [m Hm]; simpl.
  - now rewrite clear_layers_none.
  - unfold on_map at 2. rewrite Hm.
    replace (set_mapRef (Some (removeLayer i m)) p) with (clear_layers {[i]} p).
    2:{ unfold clear_layers. rewrite Hm. reflexivity. }
    rewrite IH.
    + now rewrite clear_layers_twice.
    + unfold clear_layers. rewrite Hm. simpl. eauto.
Qed.

Lemma removeMarkers_clears (p : Page) :
  is_Some (mapRef p) ->
  removeMarkers p = Normal (clear_layers (tracked_markers p) p).
Proof. apply remove_each. Qed.

Lemma elem_of_tracked_markers (p : Page) (i : nat) :
  i ∈ tracked_markers p <-> exists k, markersRef p !! k = Some i.
Proof.
  unfold tracked_markers. rewrite elem_of_list_to_set, list_elem_of_fmap. split.
  - intros [[k j] [-> H]]. exists k. now apply elem_of_map_to_list.
  - intros [k H]. exists (k, i). split; [reflexivity|]. now apply elem_of_map_to_list.
Qed.

(** The effect on a page with a map and a route of at least three points. *)
Lemma routeEffect_rebuilds (s : AppState) (p : Page) (m : Map)
      (a b c : LatLng) (rest : list LatLng) :
  mapRef p = Some m -> routePoints s = a :: b :: c :: rest ->
  routeEffect s p = Normal (rebuilt s a b c m p).
Proof.
  intros Hm Hr. destruct p as [h ct mr mk pl]. simpl in Hm. subst mr.
  unfold routeEffect, rebuilt. rewrite Hr. cbn [mapRef].
  rewrite removeMarkers_clears by (simpl; eauto).
  unfold tracked_polyline.
  destruct pl as [l|]; cbn -[tracked_markers alter];
    rewrite !alter_insert_eq, ?difference_empty_L; reflexivity.
Qed.

Section Rebuilt.
Variables (s : AppState) (a b c : LatLng) (m : Map) (p : Page).
Hypothesis Hmap : mapRef p = Some m.
Hypothesis Hwf : page_wf p.

Let n := next (store p).
Let p' := rebuilt s a b c m p.
Let m' : Map := rebuilt_map a b c m p.

Lemma rebuilt_mapRef : mapRef p' = Some m'.
Proof.
  unfold p', m', rebuilt, rebuilt_map, fresh_polyline, fresh_markers, untracked.
  cbn [mapRef]. fold n. do 2 f_equal. set_solver.
Qed.

Lemma rebuilt_old_objects (i : nat) :
  (i < n)%nat -> objects (store p') !! i = objects (store p) !! i.
Proof.
  intros Hi. unfold p', rebuilt. cbn [store objects]. fold n.
  rewrite !lookup_insert_ne by lia. reflexivity.
Qed.

Lemma rebuilt_new_objects :
  is_marker (store p') n = true /\ is_marker (store p') (S n) = true
  /\ is_marker (store p') (S (S n)) = true
  /\ is_marker (store p') (S (S (S n))) = false
  /\ is_polyline (store p') n = false /\ is_polyline (store p') (S n) = false
  /\ is_polyline (store p') (S (S n)) = false
  /\ is_polyline (store p') (S (S (S n))) = true.
Proof.
  unfold is_marker, is_polyline, p', rebuilt. cbn [store objects]. fold n.
  repeat split.
  all: rewrite ?lookup_insert_eq;
    repeat (rewrite lookup_insert_ne by lia; rewrite ?lookup_insert_eq);
    reflexivity.
Qed.

Lemma untracked_old (i : nat) : i ∈ untracked p m -> (i < n)%nat.
Proof.
  intros Hi. destruct (proj2 Hwf m Hmap) as [Hlt _]. apply Hlt.
  unfold untracked in Hi. set_solver.
Qed.

Lemma rebuilt_tracked_markers : tracked_markers p' = fresh_markers n.
Proof.
  apply set_eq. intros i. rewrite elem_of_tracked_markers.
  unfold p', rebuilt, fresh_markers. cbn [markersRef]. fold n. split.
  - intros [k Hk].
    rewrite !lookup_insert in Hk. repeat case_decide; simplify_eq; set_solver.
  - rewrite !elem_of_union, !elem_of_singleton. intros [[->| ->]| ->].
    + exists "current"%string. reflexivity.
    + exists "pickup"%string. reflexivity.
    + exists "dropoff"%string. reflexivity.
Qed.

Lemma rebuilt_tracked_polyline : tracked_polyline p' = fresh_polyline n.
Proof. reflexivity. Qed.

Lemma rebuilt_markers_on : markers_on (store p') m' = fresh_markers n.
Proof.
  destruct rebuilt_new_objects as (M0 & M1 & M2 & M3 & _).
  destruct (proj2 Hwf m Hmap) as (_ & Hmk & _).
  apply set_eq. intros i. unfold markers_on. rewrite elem_of_filter.
  unfold m', rebuilt_map. cbn [map_layers]. fold n. unfold fresh_polyline, fresh_markers. split.
  - intros [Hi Hin].
    rewrite !elem_of_union, !elem_of_singleton in Hin.
    destruct Hin as [->|[Hin|Hin]].
    + congruence.
    + set_solver.
    + exfalso. pose proof (untracked_old i Hin) as Hlt.
      unfold is_marker in Hi. rewrite rebuilt_old_objects in Hi by exact Hlt.
      unfold untracked in Hin.
      assert (i ∈ tracked_markers p) by (apply Hmk; [set_solver | exact Hi]).
      set_solver.
  - rewrite !elem_of_union, !elem_of_singleton. intros [[->| ->]| ->]; split; auto.
Qed.

Lemma rebuilt_polylines_on : polylines_on (store p') m' = fresh_polyline n.
Proof.
  destruct rebuilt_new_objects as (_ & _ & _ & _ & P0 & P1 & P2 & P3).
  destruct (proj2 Hwf m Hmap) as (_ & _ & Hpl).
  apply set_eq. intros i. unfold polylines_on. rewrite elem_of_filter.
  unfold m', rebuilt_map. cbn [map_layers]. fold n. unfold fresh_polyline, fresh_markers. split.
  - intros [Hi Hin].
    rewrite !elem_of_union, !elem_of_singleton in Hin.
    destruct Hin as [->|[[[->| ->]| ->]|Hin]]; try congruence.
    + set_solver.
    + exfalso. pose proof (untracked_old i Hin) as Hlt.
      unfold is_polyline in Hi. rewrite rebuilt_old_objects in Hi by exact Hlt.
      unfold untracked in Hin.
      assert (i ∈ tracked_polyline p) by (apply Hpl; [set_solver | exact Hi]).
      set_solver.
  - rewrite elem_of_singleton. intros ->. split; [exact P3 | set_solver].
Qed.

Lemma rebuilt_wf : page_wf p'.
Proof.
  split.
  { intros i. rewrite rebuilt_tracked_markers, rebuilt_tracked_polyline.
    unfold fresh_polyline, fresh_markers, p', rebuilt. cbn [store next]. fold n.
    rewrite !elem_of_union, !elem_of_singleton. lia. }
  intros m0 Hm0. rewrite rebuilt_mapRef in Hm0. injection Hm0 as <-.
  split; [|split].
  - intros i. unfold m', rebuilt_map. cbn [map_layers]. fold n. unfold fresh_polyline, fresh_markers.
    rewrite !elem_of_union, !elem_of_singleton.
    unfold p', rebuilt. cbn [store next]. fold n.
    intros [->|[[[->| ->]| ->]|Hin]]; try lia.
    pose proof (untracked_old i Hin). lia.
  - intros i Hin Hi. rewrite rebuilt_tracked_markers, <- rebuilt_markers_on.
    unfold markers_on. apply elem_of_filter. split; assumption.
  - intros i Hin Hi. rewrite rebuilt_tracked_polyline, <- rebuilt_polylines_on.
    unfold polylines_on. apply elem_of_filter. split; assumption.
Qed.

Lemma rebuilt_untracked : untracked p' m' = untracked p m.
Proof.
  unfold untracked at 1. rewrite rebuilt_tracked_markers, rebuilt_tracked_polyline.
  unfold m', rebuilt_map. cbn [map_layers]. fold n. apply set_eq. intros i.
  unfold fresh_polyline, fresh_markers.
  rewrite !elem_of_difference, !elem_of_union, !elem_of_singleton. split.
  - intros [[[Hi|[Hi|Hi]] Hnm] Hnp]; tauto.
  - intros Hi. pose proof (untracked_old i Hi). repeat split; [tauto | lia | lia].
Qed.

Lemma rebuilt_size : size (map_layers m') = (4 + size (untracked p m))%nat.
Proof.
  unfold m', rebuilt_map. cbn [map_layers]. fold n.
  assert (D1 : fresh_markers n ## untracked p m).
  { intros i Hi Hu. apply untracked_old in Hu. unfold fresh_markers in Hi.
    rewrite !elem_of_union, !elem_of_singleton in Hi. lia. }
  assert (D2 : fresh_polyline n ## fresh_markers n ∪ untracked p m).
  { intros i Hi Hu. unfold fresh_polyline in Hi. rewrite elem_of_singleton in Hi.
    rewrite elem_of_union in Hu. destruct Hu as [Hu|Hu].
    - unfold fresh_markers in Hu. rewrite !elem_of_union, !elem_of_singleton in Hu. lia.
    - apply untracked_old in Hu. lia. }
  rewrite size_union by exact D2. rewrite size_union by exact D1.
  unfold fresh_polyline, fresh_markers.
  rewrite size_singleton, !size_union, !size_singleton by set_solver by lia.
  reflexivity.
Qed.

(** Everything the refs tracked before the run is off the map after it. *)
Lemma rebuilt_removes_tracked (i : nat) :
  i ∈ tracked_markers p ∪ tracked_polyline p -> i ∉ map_layers m'.
Proof.
  intros Hi Hin. pose proof (proj1 Hwf i Hi) as Hlt. fold n in Hlt.
  unfold m', rebuilt_map in Hin. cbn [map_layers] in Hin. fold n in Hin.
  unfold fresh_polyline, fresh_markers, untracked in Hin.
  rewrite !elem_of_union, !elem_of_difference, !elem_of_singleton in Hin.
  rewrite elem_of_union in Hi.
  destruct Hin as [->|[[[->| ->]| ->]|[[_ Hm] Hp]]]; try lia. tauto.
Qed.

Lemma rebuilt_roles : dom (markersRef p') = {["current"; "pickup"; "dropoff"]}%string.
Proof.
  unfold p', rebuilt. cbn [markersRef]. rewrite !dom_insert_L, dom_empty_L.
  set_solver.
Qed.

End Rebuilt.

End RouteFacts.

(** ** The map-initialisation effect *)

Section InitFacts.

Lemma initMap_mounted :
  initMap mountedPage = Normal mappedPage
  /\ mapContainerRef mappedPage = Some {| leaflet_id := Some 0%nat |}
  /\ next (store mappedPage) = 2%nat
  /\ mapRef mappedPage
     = Some {| map_layers := {[1%nat]} ∪ ∅;
               map_view := Some (SetView (418781 # 10000, - (876298 # 10000)) 5) |}.
Proof. repeat split. Qed.

Lemma initMap_noop (p : Page) : is_Some (mapRef p) -> initMap p = Normal p.
Proof.
  intros [m Hm]. unfold initMap. rewrite Hm.
  destruct (mapContainerRef p); reflexivity.
Qed.

Lemma initMap_twice (p : Page) :
  initMap (state_of (initMap p)) = initMap p
  \/ (thrown (initMap p) = None /\ initMap (state_of (initMap p)) = Normal (state_of (initMap p))).
Proof.
  destruct p as [h [[[i|]]|] [m|] mk pl]; cbn; auto.
Qed.

Lemma initMap_state_idempotent (p : Page) :
  state_of (initMap (state_of (initMap p))) = state_of (initMap p).
Proof.
  destruct (initMap_twice p) as [E|[_ E]]; rewrite E; reflexivity.
Qed.

Lemma initMap_iterated (k : nat) (p : Page) :
  Nat.iter (S k) (fun q => state_of (initMap q)) p = state_of (initMap p).
Proof.
  induction k as [|k IH]; [reflexivity|].
  change (Nat.iter (S (S k)) (fun q => state_of (initMap q)) p)
    with (state_of (initMap (Nat.iter (S k) (fun q => state_of (initMap q)) p))).
  rewrite IH. apply initMap_state_idempotent.
Qed.

Lemma mappedPage_wf : page_wf mappedPage.
Proof.
  split.
  - intros i Hi. exfalso. rewrite elem_of_union in Hi. destruct Hi as [Hi|Hi].
    + apply elem_of_tracked_markers in Hi as [k Hk]. cbn in Hk.
      rewrite lookup_empty in Hk. discriminate.
    + cbn in Hi. set_solver.
  - intros m Hm. cbn in Hm. injection Hm as <-. cbn [map_layers].
    split; [|split]; intros i Hi.
    + cbn. assert (i = 1)%nat by set_solver. lia.
    + assert (i = 1)%nat as -> by set_solver. unfold is_marker. cbn.
      rewrite lookup_insert_eq. discriminate.
    + assert (i = 1)%nat as -> by set_solver. unfold is_polyline. cbn.
      rewrite lookup_insert_eq. discriminate.
Qed.

End InitFacts.

(** C9. Running the initialisation effect while [mapRef] already holds a map
    changes nothing; running it any number of times leaves the page exactly
    as one run does, so no further widget is created or bound: from the
    freshly mounted page the container keeps the stamp of the one map, and
    the allocation pointer stays where the first run left it. *)
Theorem initMap_is_idempotent :
  (forall p : Page, is_Some (mapRef p) -> initMap p = Normal p)
  /\ (forall p : Page, state_of (initMap (state_of (initMap p))) = state_of (initMap p))
  /\ (forall (k : nat) (p : Page),
         Nat.iter (S k) (fun q => state_of (initMap q)) p = state_of (initMap p))
  /\ (forall k : nat,
         let p := Nat.iter (S k) (fun q => state_of (initMap q)) mountedPage in
         mapContainerRef p = Some {| leaflet_id := Some 0%nat |}
         /\ next (store p) = 2%nat
         /\ is_Some (mapRef p)
         /\ thrown (initMap p) = None).
Proof.
  split; [exact initMap_noop|]. split; [exact initMap_state_idempotent|].
  split; [exact initMap_iterated|].
  intros k. cbv zeta. rewrite initMap_iterated. fold mappedPage.
  repeat split. cbn. eauto.
Qed.

Lemma initMap_is_idempotent_witness : initMap mappedPage = Normal mappedPage.
Proof.
  apply (proj1 initMap_is_idempotent mappedPage). cbn. eauto.
Defined.

(** ** Redrawing the route *)

(** C2. On a page that has its map, a route of three points applied twice
    in a row, with the same or with different labels, leaves as many layers
    on the map as applying it once: after either run the map carries exactly
    three markers, recorded under the keys current, pickup and dropoff, and
    one polyline, every marker and line the refs held before a run is off
    the map after it, and the page stays well formed for the next run. *)
Theorem route_twice_same_layers
        (s1 s2 : AppState) (p : Page) (m : Map) (a b c : LatLng) :
  mapRef p = Some m -> page_wf p ->
  routePoints s1 = [a; b; c] -> routePoints s2 = [a; b; c] ->
  exists (p1 p2 : Page) (m1 m2 : Map),
    routeEffect s1 p = Normal p1 /\ routeEffect s2 p1 = Normal p2
    /\ mapRef p1 = Some m1 /\ mapRef p2 = Some m2
    /\ size (map_layers m2) = size (map_layers m1)
    /\ size (markers_on (store p1) m1) = 3%nat /\ size (polylines_on (store p1) m1) = 1%nat
    /\ size (markers_on (store p2) m2) = 3%nat /\ size (polylines_on (store p2) m2) = 1%nat
    /\ markers_on (store p2) m2 = tracked_markers p2
    /\ polylines_on (store p2) m2 = tracked_polyline p2
    /\ dom (markersRef p2) = {["current"; "pickup"; "dropoff"]}%string
    /\ (forall i, i ∈ tracked_markers p ∪ tracked_polyline p -> i ∉ map_layers m1)
    /\ (forall i, i ∈ tracked_markers p1 ∪ tracked_polyline p1 -> i ∉ map_layers m2)
    /\ page_wf p1 /\ page_wf p2.
Proof.
  intros Hm Hwf Hr1 Hr2.
  pose proof (rebuilt_mapRef s1 a b c m p Hm Hwf) as Hm1.
  pose proof (rebuilt_wf s1 a b c m p Hm Hwf) as Hwf1.
  pose proof (rebuilt_mapRef s2 a b c _ _ Hm1 Hwf1) as Hm2.
  assert (Hsize3 : forall k, size (fresh_markers k) = 3%nat).
  { intros k. unfold fresh_markers.
    rewrite !size_union, !size_singleton by set_solver by lia. reflexivity. }
  exists (rebuilt s1 a b c m p),
         (rebuilt s2 a b c (rebuilt_map a b c m p) (rebuilt s1 a b c m p)),
         (rebuilt_map a b c m p),
         (rebuilt_map a b c (rebuilt_map a b c m p) (rebuilt s1 a b c m p)).
  split; [exact (routeEffect_rebuilds s1 p m a b c [] Hm Hr1)|].
  split; [exact (routeEffect_rebuilds s2 _ _ a b c [] Hm1 Hr2)|].
  split; [exact Hm1|]. split; [exact Hm2|].
  rewrite (rebuilt_size a b c _ _ Hm1 Hwf1), (rebuilt_size a b c m p Hm Hwf).
  rewrite (rebuilt_untracked s1 a b c m p Hm Hwf).
  rewrite (rebuilt_markers_on s1 a b c m p Hm Hwf).
  rewrite (rebuilt_polylines_on s1 a b c m p Hm Hwf).
  rewrite (rebuilt_markers_on s2 a b c _ _ Hm1 Hwf1).
  rewrite (rebuilt_polylines_on s2 a b c _ _ Hm1 Hwf1).
  rewrite (rebuilt_tracked_markers s2 a b c _ _ Hm1 Hwf1).
  rewrite !Hsize3.
  assert (Hsize1 : forall k, size (fresh_polyline k) = 1%nat).
  { intros k. unfold fresh_polyline. apply size_singleton. }
  rewrite !Hsize1.
  do 7 (split; [reflexivity|]).
  split; [apply rebuilt_roles|].
  split; [exact (rebuilt_removes_tracked a b c m p Hwf)|].
  split; [exact (rebuilt_removes_tracked a b c _ _ Hwf1)|].
  split; [exact Hwf1|].
  exact (rebuilt_wf s2 a b c _ _ Hm1 Hwf1).
Qed.

Lemma route_twice_same_layers_witness :
  exists (p1 p2 : Page) (m1 m2 : Map),
    routeEffect (with_route three_points initialState) mappedPage = Normal p1
    /\ routeEffect (with_route three_points (setPickupLocation "Memphis, TN" initialState)) p1
       = Normal p2
    /\ mapRef p1 = Some m1 /\ mapRef p2 = Some m2
    /\ size (map_layers m2) = size (map_layers m1)
    /\ size (markers_on (store p2) m2) = 3%nat
    /\ size (polylines_on (store p2) m2) = 1%nat.
Proof.
  destruct (route_twice_same_layers
              (with_route three_points initialState)
              (with_route three_points (setPickupLocation "Memphis, TN" initialState))
              mappedPage
              {| map_layers := {[1%nat]} ∪ ∅;
                 map_view := Some (SetView (418781 # 10000, - (876298 # 10000)) 5) |}
              (418781 # 10000, - (876298 # 10000))
              (386270 # 10000, - (901994 # 10000))
              (337490 # 10000, - (843880 # 10000))
              eq_refl mappedPage_wf eq_refl eq_refl)
    as (p1 & p2 & m1 & m2 & H1 & H2 & H3 & H4 & H5 & _ & _ & H6 & H7 & _).
  exists p1, p2, m1, m2. repeat split; assumption.
Defined.

(** C8, as stated, fails: the effect takes a route of no point and a route
    of four points without throwing. *)
Lemma route_of_other_length_is_accepted :
  length (routePoints (with_route [] initialState)) <> 3%nat
  /\ routeEffect (with_route [] initialState) mappedPage = Normal mappedPage
  /\ length (routePoints (with_route four_points initialState)) <> 3%nat
  /\ thrown (routeEffect (with_route four_points initialState) mappedPage) = None.
Proof.
  split; [discriminate|]. split; [reflexivity|]. split; [discriminate|].
  rewrite (routeEffect_rebuilds (with_route four_points initialState) mappedPage
             {| map_layers := {[1%nat]} ∪ ∅;
                map_view := Some (SetView (418781 # 10000, - (876298 # 10000)) 5) |}
             (418781 # 10000, - (876298 # 10000))
             (386270 # 10000, - (901994 # 10000))
             (337490 # 10000, - (843880 # 10000))
             [(25, -80)] eq_refl eq_refl).
  reflexivity.
Qed.

(** C8, amended. The effect checks the length of the route only against
    zero: with an empty route it returns at once and leaves the page as it
    is, and with more than three points on a page that has its map it runs
    to its end without throwing, putting markers on the first three points,
    the polyline through all of them, and fitting the view to the first
    three. *)
Theorem routeEffect_has_no_length_check :
  (forall (s : AppState) (p : Page), routePoints s = [] -> routeEffect s p = Normal p)
  /\ (forall (s : AppState) (p : Page) (m : Map) (a b c d : LatLng) (rest : list LatLng),
         mapRef p = Some m -> page_wf p -> routePoints s = a :: b :: c :: d :: rest ->
         exists (p' : Page) (m' : Map),
           routeEffect s p = Normal p' /\ mapRef p' = Some m'
           /\ size (markers_on (store p') m') = 3%nat
           /\ size (polylines_on (store p') m') = 1%nat
           /\ (exists t0 t1 t2,
                  objects (store p') !! next (store p) = Some (Marker (Some a) t0)
                  /\ objects (store p') !! S (next (store p)) = Some (Marker (Some b) t1)
                  /\ objects (store p') !! S (S (next (store p))) = Some (Marker (Some c) t2))
           /\ objects (store p') !! S (S (S (next (store p))))
              = Some (Polyline (a :: b :: c :: d :: rest) "red" 4)
           /\ map_view m' = Some (FitBounds [a; b; c] (50, 50)%Z)).
Proof.
  split.
  - intros s p Hr. unfold routeEffect. rewrite Hr. destruct (mapRef p); reflexivity.
  - intros s p m a b c d rest Hm Hwf Hr.
    exists (rebuilt s a b c m p), (rebuilt_map a b c m p).
    split; [exact (routeEffect_rebuilds s p m a b c (d :: rest) Hm Hr)|].
    split; [exact (rebuilt_mapRef s a b c m p Hm Hwf)|].
    rewrite (rebuilt_markers_on s a b c m p Hm Hwf).
    rewrite (rebuilt_polylines_on s a b c m p Hm Hwf).
    split.
    { unfold fresh_markers.
      rewrite !size_union, !size_singleton by set_solver by lia. reflexivity. }
    split; [unfold fresh_polyline; apply size_singleton|].
    unfold rebuilt. cbn [store objects]. rewrite Hr.
    split; [|split; [|reflexivity]].
    + do 3 eexists. split; [|split].
      * rewrite !lookup_insert_ne by lia. apply lookup_insert_eq.
      * rewrite !lookup_insert_ne by lia. apply lookup_insert_eq.
      * rewrite !lookup_insert_ne by lia. apply lookup_insert_eq.
    + apply lookup_insert_eq.
Qed.

Lemma routeEffect_has_no_length_check_witness :
  routeEffect (with_route [] initialState) mappedPage = Normal mappedPage
  /\ exists (p' : Page) (m' : Map),
       routeEffect (with_route four_points initialState) mappedPage = Normal p'
       /\ mapRef p' = Some m'
       /\ size (markers_on (store p') m') = 3%nat.
Proof.
  split.
  - apply (proj1 routeEffect_has_no_length_check). reflexivity.
  - destruct (proj2 routeEffect_has_no_length_check
                (with_route four_points initialState) mappedPage
                {| map_layers := {[1%nat]} ∪ ∅;
                   map_view := Some (SetView (418781 # 10000, - (876298 # 10000)) 5) |}
                (418781 # 10000, - (876298 # 10000))
                (386270 # 10000, - (901994 # 10000))
                (337490 # 10000, - (843880 # 10000))
                (25, -80) [] eq_refl mappedPage_wf eq_refl)
      as (p' & m' & H1 & H2 & H3 & _).
    exists p', m'. repeat split; assumption.
Defined.

(** A route of one or two points is not refused by the component either;
    the run stops inside Leaflet, at the first marker without coordinates,
    after the old layers were cleared and the earlier markers added. *)
Remark short_route_stops_in_leaflet :
  let c := routeEffect (with_route [(41, -87)] initialState) mappedPage in
  thrown c = Some {| message := undefined_property_message "lat" |}
  /\ dom (markersRef (state_of c)) = {["current"%string]}
  /\ polylineRef (state_of c) = None.
Proof.
  cbv zeta. unfold routeEffect. cbn [mapRef mappedPage routePoints with_route].
  change (mapRef mappedPage) with
    (Some {| map_layers := {[1%nat]} ∪ ∅;
             map_view := Some (SetView (418781 # 10000, - (876298 # 10000)) 5) |}).
  cbn [routePoints with_route setRoutePoints].
  rewrite removeMarkers_clears by (cbn; eauto).
  cbn -[tracked_markers alter]. repeat split.
Qed.

(** The second revision rounds the trip total before subtracting it, the
    first one does not; the two banners can differ in the last digit. *)
Remark revisions_round_differently :
  banner_remaining_cycle 0 [sample_day 1 (1 # 20) 0] = 700%Z
  /\ calculateRemainingCycle 0 [sample_day 1 (1 # 20) 0] = 699%Z.
Proof. split; reflexivity. Qed.

(** * The component beyond the stated claims *)

(** ** Mounting, unmounting and redrawing *)

Section PageLife.

Lemma tracked_after_set_mapRef (o : option Map) (p : Page) :
  tracked_markers (set_mapRef o p) = tracked_markers p
  /\ tracked_polyline (set_mapRef o p) = tracked_polyline p.
Proof. split; reflexivity. Qed.

Lemma mountedPage_ok :
  page_wf mountedPage /\ container_agrees mountedPage /\ layers_tidy mountedPage.
Proof.
  split; [|split].
  - split.
    + intros i Hi. exfalso. rewrite elem_of_union in Hi. destruct Hi as [Hi|Hi].
      * apply elem_of_tracked_markers in Hi as [k Hk]. cbn in Hk.
        rewrite lookup_empty in Hk. discriminate.
      * cbn in Hi. set_solver.
    + intros m Hm. discriminate.
  - intros c Hc. cbn in Hc. injection Hc as <-. cbn. tauto.
  - intros m Hm. discriminate.
Qed.

Lemma cleanupMap_ok (p : Page) :
  page_wf p -> container_agrees p ->
  page_wf (cleanupMap p) /\ container_agrees (cleanupMap p) /\ layers_tidy (cleanupMap p).
Proof.
  intros Hwf Hag. unfold cleanupMap.
  destruct (mapRef p) as [m|] eqn:Hm.
  - split; [|split].
    + split; [exact (proj1 Hwf) | intros m0 H0; discriminate].
    + intros c Hc. cbn in Hc. destruct (mapContainerRef p) as [c0|]; [|discriminate].
      cbn in Hc. injection Hc as <-. cbn. tauto.
    + intros m0 H0. discriminate.
  - split; [exact Hwf|]. split; [exact Hag|].
    intros m0 H0. congruence.
Qed.

Lemma initMap_ok (p : Page) :
  page_wf p -> container_agrees p -> layers_tidy p ->
  exists p', initMap p = Normal p'
             /\ page_wf p' /\ container_agrees p' /\ layers_tidy p'.
Proof.
  intros Hwf Hag Htidy.
  destruct p as [h ct mr mk pl].
  destruct ct as [c|]; [|exists (Build_Page h None mr mk pl); destruct mr; auto].
  destruct mr as [m|]; [eexists; split; [reflexivity|auto]|].
  assert (Hfree : leaflet_id c = None) by (apply (Hag c); reflexivity).
  destruct c as [stamp]. cbn in Hfree. subst stamp.
  eexists. split; [reflexivity|].
  destruct Hwf as [Hold _]. cbn [alloc set_mapRef set_mapContainerRef set_store
    store mapRef mapContainerRef markersRef polylineRef next objects fst snd] in *.
  split; [|split].
  - split.
    + intros i Hi. cbn. specialize (Hold i Hi). cbn in Hold. lia.
    + intros m0 H0. cbn in H0. injection H0 as <-. cbn [map_layers addLayer setView].
      split; [|split]; intros i Hi.
      * cbn. assert (i = S (next h)) by set_solver. lia.
      * assert (i = S (next h)) as -> by set_solver. unfold is_marker. cbn.
        rewrite lookup_insert_eq. discriminate.
      * assert (i = S (next h)) as -> by set_solver. unfold is_polyline. cbn.
        rewrite lookup_insert_eq. discriminate.
  - intros c Hc. cbn in Hc. injection Hc as <-. cbn. split; discriminate.
  - intros m0 H0. cbn in H0. injection H0 as <-. left.
    unfold markers_on, polylines_on.
    split; apply set_eq; intros i; rewrite elem_of_filter; cbn [map_layers addLayer setView];
      (split; [intros [Hi Hin] | set_solver]).
    + assert (i = S (next h)) as -> by set_solver. unfold is_marker in Hi. cbn in Hi.
      rewrite lookup_insert_eq in Hi. discriminate.
    + assert (i = S (next h)) as -> by set_solver. unfold is_polyline in Hi. cbn in Hi.
      rewrite lookup_insert_eq in Hi. discriminate.
Qed.

Lemma routeEffect_ok (s : AppState) (p : Page) :
  drawable (RunRoute s) = true ->
  page_wf p -> container_agrees p -> layers_tidy p ->
  exists p', routeEffect s p = Normal p'
             /\ page_wf p' /\ container_agrees p' /\ layers_tidy p'.
Proof.
  intros Hd Hwf Hag Htidy. cbn in Hd.
  destruct (mapRef p) as [m|] eqn:Hm.
  2:{ exists p. unfold routeEffect. rewrite Hm. auto. }
  destruct (routePoints s) as [|a [|b [|c rest]]] eqn:Hr; try discriminate.
  { exists p. unfold routeEffect. rewrite Hm, Hr. auto. }
  exists (rebuilt s a b c m p).
  split; [exact (routeEffect_rebuilds s p m a b c rest Hm Hr)|].
  split; [exact (rebuilt_wf s a b c m p Hm Hwf)|]. split.
  - intros ct Hct. cbn in Hct. specialize (Hag ct Hct). rewrite Hm in Hag.
    cbn. split; [intros H; apply Hag in H; discriminate | discriminate].
  - intros m0 H0. rewrite (rebuilt_mapRef s a b c m p Hm Hwf) in H0. injection H0 as <-.
    right. rewrite (rebuilt_markers_on s a b c m p Hm Hwf).
    rewrite (rebuilt_polylines_on s a b c m p Hm Hwf).
    unfold fresh_markers, fresh_polyline. split.
    + rewrite !size_union, !size_singleton by set_solver by lia. reflexivity.
    + apply size_singleton.
Qed.

Lemma page_step_ok (e : PageEvent) (p : Page) :
  drawable e = true ->
  page_wf p -> container_agrees p -> layers_tidy p ->
  exists p', page_step p e = Normal p'
             /\ page_wf p' /\ container_agrees p' /\ layers_tidy p'.
Proof.
  intros Hd Hwf Hag Htidy. destruct e as [| |s]; cbn [page_step].
  - apply initMap_ok; assumption.
  - eexists. split; [reflexivity|]. apply cleanupMap_ok; assumption.
  - apply routeEffect_ok; assumption.
Qed.

Lemma page_run_ok (es : list PageEvent) (p : Page) :
  forallb drawable es = true ->
  page_wf p -> container_agrees p -> layers_tidy p ->
  exists p', page_run p es = Normal p'
             /\ page_wf p' /\ container_agrees p' /\ layers_tidy p'.
Proof.
  revert p. induction es as [|e es IH]; intros p Hd Hwf Hag Htidy.
  - exists p. auto.
  - cbn in Hd. apply andb_true_iff in Hd as [He Hes].
    destruct (page_step_ok e p He Hwf Hag Htidy) as (p1 & Hstep & Hwf1 & Hag1 & Ht1).
    unfold page_run. cbn [foldl andThen]. rewrite Hstep.
    apply (IH p1 Hes Hwf1 Hag1 Ht1).
Qed.

End PageLife.

(** X1. Whatever the order in which React runs the initialisation effect,
    its cleanup and the route effect (with routes of no point or of at least
    three), nothing throws, the container is stamped exactly while a map is
    held, and the map shows either no marker and no line or exactly three
    markers and one line. *)
Theorem page_life_never_throws (es : list PageEvent) :
  forallb drawable es = true ->
  exists p : Page,
    page_run mountedPage es = Normal p
    /\ page_wf p /\ container_agrees p /\ layers_tidy p.
Proof.
  intros Hd. destruct mountedPage_ok as (Hwf & Hag & Htidy).
  exact (page_run_ok es mountedPage Hd Hwf Hag Htidy).
Qed.

Lemma page_life_never_throws_witness :
  exists p : Page,
    page_run mountedPage sample_page_life = Normal p
    /\ page_wf p /\ container_agrees p /\ layers_tidy p.
Proof. exact (page_life_never_throws sample_page_life eq_refl). Defined.

(** X2. The cleanup of the initialisation effect can run any number of
    times; it drops the map and the container's stamp and touches neither
    the object store nor [markersRef] and [polylineRef]; after it the route
    effect does nothing, and the initialisation effect builds a new map
    with the tile layer alone. *)
Theorem cleanupMap_releases_the_container (p : Page) :
  cleanupMap (cleanupMap p) = cleanupMap p
  /\ mapRef (cleanupMap p) = None
  /\ store (cleanupMap p) = store p
  /\ markersRef (cleanupMap p) = markersRef p
  /\ polylineRef (cleanupMap p) = polylineRef p
  /\ (forall s : AppState, routeEffect s (cleanupMap p) = Normal (cleanupMap p))
  /\ (forall (c : Container) (m : Map),
         mapContainerRef p = Some c -> mapRef p = Some m ->
         exists (p' : Page) (m' : Map),
           initMap (cleanupMap p) = Normal p'
           /\ mapRef p' = Some m'
           /\ map_layers m' = {[S (next (store p))]} ∪ ∅
           /\ objects (store p') !! S (next (store p))
              = Some (TileLayer tile_url tile_attribution)
           /\ mapContainerRef p' = Some {| leaflet_id := Some (next (store p)) |}
           /\ markersRef p' = markersRef p /\ polylineRef p' = polylineRef p).
Proof.
  destruct p as [h ct [m|] mk pl]; cbn.
  - do 5 (split; [reflexivity|]). split; [intros s; reflexivity|].
    intros c m0 -> _. destruct c as [stamp]. cbn.
    do 2 eexists. split; [reflexivity|]. cbn.
    do 2 (split; [reflexivity|]). split; [apply lookup_insert_eq|].
    repeat split.
  - do 5 (split; [reflexivity|]). split; [intros s; reflexivity|].
    intros c m0 _ H0. discriminate.
Qed.

Lemma cleanupMap_releases_the_container_witness :
  exists (p' : Page) (m' : Map),
    initMap (cleanupMap mappedPage) = Normal p'
    /\ mapRef p' = Some m'
    /\ map_layers m' = {[3%nat]} ∪ ∅.
Proof.
  destruct (proj2 (proj2 (proj2 (proj2 (proj2 (proj2
              (cleanupMap_releases_the_container mappedPage))))))
              {| leaflet_id := Some 0%nat |}
              {| map_layers := {[1%nat]} ∪ ∅;
                 map_view := Some (SetView (418781 # 10000, - (876298 # 10000)) 5) |}
              eq_refl eq_refl)
    as (p' & m' & H1 & H2 & H3 & _).
  exists p', m'. repeat split; assumption.
Defined.

(** ** Where the markers of a route end up *)

Section RouteRoles.

Lemma role_cases (role : string) :
  role ∈ roles -> role = "current"%string \/ role = "pickup"%string \/ role = "dropoff"%string.
Proof.
  unfold roles. rewrite !elem_of_cons, elem_of_nil. tauto.
Qed.

(** The page left by a run, role by role. *)
Lemma rebuilt_role_markers (s : AppState) (p : Page) (m : Map)
      (a b c : LatLng) (rest : list LatLng) :
  mapRef p = Some m -> routePoints s = a :: b :: c :: rest ->
  exists (p' : Page) (m' : Map),
    routeEffect s p = Normal p' /\ mapRef p' = Some m'
    /\ (forall role, role ∈ roles ->
          exists (i : nat) (pt : LatLng),
            markersRef p' !! role = Some i /\ i ∈ map_layers m'
            /\ role_point s role = Some pt
            /\ objects (store p') !! i = Some (Marker (Some pt) (Some (role_popup s role))))
    /\ (forall role, role ∉ roles -> markersRef p' !! role = None)
    /\ (exists l : nat,
           polylineRef p' = Some l /\ l ∈ map_layers m'
           /\ objects (store p') !! l = Some (Polyline (routePoints s) "red" 4))
    /\ map_view m' = Some (FitBounds [a; b; c] (50, 50)%Z).
Proof.
  intros Hm Hr.
  exists (rebuilt s a b c m p). eexists.
  split; [exact (routeEffect_rebuilds s p m a b c rest Hm Hr)|].
  split; [reflexivity|].
  cbn [rebuilt store objects markersRef polylineRef map_layers map_view].
  split; [|split; [|split; [|reflexivity]]].
  - intros role Hrole. unfold role_point, role_popup. rewrite Hr.
    destruct (role_cases role Hrole) as [->|[->| ->]].
    + exists (next (store p)), a. split; [reflexivity|]. split; [set_solver|].
      split; [reflexivity|]. rewrite !lookup_insert_ne by lia. apply lookup_insert_eq.
    + exists (S (next (store p))), b. split; [reflexivity|]. split; [set_solver|].
      split; [reflexivity|]. rewrite !lookup_insert_ne by lia. apply lookup_insert_eq.
    + exists (S (S (next (store p)))), c. split; [reflexivity|]. split; [set_solver|].
      split; [reflexivity|]. rewrite !lookup_insert_ne by lia. apply lookup_insert_eq.
  - intros role Hrole. unfold roles in Hrole.
    rewrite !not_elem_of_cons in Hrole. destruct Hrole as (H1 & H2 & H3 & _).
    rewrite !lookup_insert_ne by congruence. apply lookup_empty.
  - exists (S (S (S (next (store p))))). split; [reflexivity|]. split; [set_solver|].
    apply lookup_insert_eq.
Qed.

End RouteRoles.

(** X3. After a run of the route effect on a page that has its map, with a
    route of three or more points, each of the keys current, pickup and
    dropoff of [markersRef] holds a marker that is on the map, sits on the
    first, second and third route point respectively and carries the popup
    built from the matching location field; no other key exists; the line
    in [polylineRef] is on the map and runs through all the points; the view
    is fitted to the first three. *)
Theorem route_markers_follow_roles
        (s : AppState) (p : Page) (m : Map) (a b c : LatLng) (rest : list LatLng) :
  mapRef p = Some m -> routePoints s = a :: b :: c :: rest ->
  exists (p' : Page) (m' : Map),
    routeEffect s p = Normal p' /\ mapRef p' = Some m'
    /\ (forall role, role ∈ roles ->
          exists (i : nat) (pt : LatLng),
            markersRef p' !! role = Some i /\ i ∈ map_layers m'
            /\ role_point s role = Some pt
            /\ objects (store p') !! i = Some (Marker (Some pt) (Some (role_popup s role))))
    /\ (forall role, role ∉ roles -> markersRef p' !! role = None)
    /\ (exists l : nat,
           polylineRef p' = Some l /\ l ∈ map_layers m'
           /\ objects (store p') !! l = Some (Polyline (routePoints s) "red" 4))
    /\ map_view m' = Some (FitBounds [a; b; c] (50, 50)%Z).
Proof. exact (rebuilt_role_markers s p m a b c rest). Qed.

Lemma route_markers_follow_roles_witness :
  exists (p' : Page) (m' : Map),
    routeEffect (with_route four_points initialState) mappedPage = Normal p'
    /\ mapRef p' = Some m'
    /\ map_view m' = Some (FitBounds three_points (50, 50)%Z).
Proof.
  destruct (route_markers_follow_roles
              (with_route four_points initialState) mappedPage
              {| map_layers := {[1%nat]} ∪ ∅;
                 map_view := Some (SetView (418781 # 10000, - (876298 # 10000)) 5) |}
              (418781 # 10000, - (876298 # 10000))
              (386270 # 10000, - (901994 # 10000))
              (337490 # 10000, - (843880 # 10000))
              [(25, -80)] eq_refl eq_refl)
    as (p' & m' & H1 & H2 & _ & _ & _ & H3).
  exists p', m'. repeat split; assumption.
Defined.

(** X4. A run of the route effect takes off the map only what the refs
    tracked: every other layer that was on the map (the tile layer for one)
    is still there with its object untouched; and of the markers and lines,
    only the new ones are on the map afterwards. *)
Theorem route_keeps_other_layers
        (s : AppState) (p : Page) (m : Map) (a b c : LatLng) (rest : list LatLng) :
  mapRef p = Some m -> page_wf p -> routePoints s = a :: b :: c :: rest ->
  exists (p' : Page) (m' : Map),
    routeEffect s p = Normal p' /\ mapRef p' = Some m'
    /\ (forall i, i ∈ map_layers m -> i ∉ tracked_markers p -> i ∉ tracked_polyline p ->
                  i ∈ map_layers m' /\ objects (store p') !! i = objects (store p) !! i)
    /\ (forall i, i ∈ map_layers m' -> is_marker (store p') i = true ->
                  i ∈ tracked_markers p' /\ (i ∉ map_layers m))
    /\ (forall i, i ∈ map_layers m' -> is_polyline (store p') i = true ->
                  i ∈ tracked_polyline p' /\ (i ∉ map_layers m)).
Proof.
  intros Hm Hwf Hr.
  pose proof (rebuilt_wf s a b c m p Hm Hwf) as Hwf'.
  pose proof (rebuilt_mapRef s a b c m p Hm Hwf) as Hm'.
  exists (rebuilt s a b c m p), (rebuilt_map a b c m p).
  split; [exact (routeEffect_rebuilds s p m a b c rest Hm Hr)|].
  split; [exact Hm'|].
  assert (Hnew : forall i, i ∈ tracked_markers (rebuilt s a b c m p)
                           ∪ tracked_polyline (rebuilt s a b c m p) -> i ∉ map_layers m).
  { intros i Hi Hin. pose proof (proj1 (proj2 Hwf m Hm) i Hin) as Hlt.
    rewrite (rebuilt_tracked_markers s a b c m p Hm Hwf), rebuilt_tracked_polyline in Hi.
    unfold fresh_markers, fresh_polyline in Hi.
    rewrite !elem_of_union, !elem_of_singleton in Hi.
    clear - Hi Hlt. lia. }
  split; [|split].
  - intros i Hi Hnm Hnp. split.
    + unfold rebuilt_map, untracked. cbn [map_layers].
      rewrite !elem_of_union, !elem_of_difference. right. right. tauto.
    + apply (rebuilt_old_objects s a b c m p). exact (proj1 (proj2 Hwf m Hm) i Hi).
  - intros i Hi Hmk.
    pose proof (proj1 (proj2 (proj2 Hwf' _ Hm')) i Hi Hmk) as Ht.
    split; [exact Ht|]. apply Hnew, elem_of_union. left. exact Ht.
  - intros i Hi Hpl.
    pose proof (proj2 (proj2 (proj2 Hwf' _ Hm')) i Hi Hpl) as Ht.
    split; [exact Ht|]. apply Hnew, elem_of_union. right. exact Ht.
Qed.

Lemma route_keeps_other_layers_witness :
  exists (p' : Page) (m' : Map),
    routeEffect (with_route three_points initialState) mappedPage = Normal p'
    /\ mapRef p' = Some m'
    /\ 1%nat ∈ map_layers m'
    /\ objects (store p') !! 1%nat = Some (TileLayer tile_url tile_attribution).
Proof.
  destruct (route_keeps_other_layers
              (with_route three_points initialState) mappedPage
              {| map_layers := {[1%nat]} ∪ ∅;
                 map_view := Some (SetView (418781 # 10000, - (876298 # 10000)) 5) |}
              (418781 # 10000, - (876298 # 10000))
              (386270 # 10000, - (901994 # 10000))
              (337490 # 10000, - (843880 # 10000))
              [] eq_refl mappedPage_wf eq_refl)
    as (p' & m' & H1 & H2 & Hkeep & _).
  assert (Htile : 1%nat ∈ ({[1%nat]} ∪ (∅ : gset nat))) by set_solver.
  assert (Hnm : 1%nat ∉ tracked_markers mappedPage).
  { intros Hin. apply elem_of_tracked_markers in Hin as [k Hk].
    cbn in Hk. rewrite lookup_empty in Hk. discriminate. }
  assert (Hnp : 1%nat ∉ tracked_polyline mappedPage) by (cbn; set_solver).
  destruct (Hkeep 1%nat Htile Hnm Hnp) as [Hin Hobj].
  exists p', m'. split; [exact H1|]. split; [exact H2|]. split; [exact Hin|].
  rewrite Hobj. cbn. apply lookup_insert_eq.
Defined.

(** ** From a reply to the map and to the page *)

Section RunFacts.

Lemma step_keeps_display (w : World) (e : Event) :
  is_successful_settle e = false -> displayed (app (step w e)) = displayed (app w).
Proof.
  intros He. destruct e as [|k reply|v|v|v]; cbn in *; try reflexivity.
  destruct (pending w !! k); [|reflexivity]. cbn.
  rewrite (resume_on_failure _ _ He). reflexivity.
Qed.

Lemma run_cons (w : World) (e : Event) (es : list Event) :
  run w (e :: es) = run (step w e) es.
Proof. reflexivity. Qed.

(** While a call is pending the form shows no error. *)
Lemma form_no_error_in_flight (w : World) :
  form_reachable w -> isCalculating (app w) = true -> error (app w) = EmptyString.
Proof.
  induction 1 as [|w e Hw IH Hallow]; [discriminate|].
  destruct e as [|k reply|v|v|v]; cbn in *; try exact IH.
  - reflexivity.
  - destruct (pending w !! k); [discriminate | exact IH].
Qed.

End RunFacts.

(** X5. When a reply with status 2xx, [success] true and a route of three
    or more points is applied and the route effect then runs on a page that
    has its map, the markers recorded as current, pickup and dropoff sit on
    the first three points of the reply's route and carry the popups built
    from the location fields the form held, and the line runs through all
    the points of the reply. *)
Theorem reply_route_reaches_the_map
        (data : Payload) (route : Route) (s : AppState)
        (p : Page) (m : Map) (a b c : LatLng) (rest : list LatLng) :
  data_success data = true -> data_route data = Some route ->
  route_points route = a :: b :: c :: rest ->
  mapRef p = Some m ->
  exists (p' : Page) (m' : Map),
    routeEffect (handleSubmit_resume (Responded true (BodyJson data)) s) p = Normal p'
    /\ mapRef p' = Some m'
    /\ (forall role, role ∈ roles ->
          exists (i : nat) (pt : LatLng),
            markersRef p' !! role = Some i /\ i ∈ map_layers m'
            /\ role_point (setRoutePoints (route_points route) s) role = Some pt
            /\ objects (store p') !! i = Some (Marker (Some pt) (Some (role_popup s role))))
    /\ (exists l : nat,
           polylineRef p' = Some l /\ l ∈ map_layers m'
           /\ objects (store p') !! l = Some (Polyline (route_points route) "red" 4)).
Proof.
  intros Hs Hroute Hpts Hm.
  rewrite (resume_on_success data route s Hs Hroute).
  destruct (rebuilt_role_markers
              (setIsCalculating false
                 (setTotalDistance (Some (total_distance route))
                    (setRoutePoints (route_points route) (setLogs (data_logs data) s))))
              p m a b c rest Hm Hpts)
    as (p' & m' & Hrun & Hmap & Hroles & _ & Hline & _).
  exists p', m'. split; [exact Hrun|]. split; [exact Hmap|]. split.
  - intros role Hrole. destruct (Hroles role Hrole) as (i & pt & H1 & H2 & H3 & H4).
    exists i, pt. repeat split; assumption.
  - exact Hline.
Qed.

Lemma reply_route_reaches_the_map_witness :
  exists (p' : Page) (m' : Map),
    routeEffect (handleSubmit_resume (Responded true (BodyJson sample_payload)) initialState)
                mappedPage = Normal p'
    /\ mapRef p' = Some m'
    /\ exists l : nat,
         polylineRef p' = Some l /\ l ∈ map_layers m'
         /\ objects (store p') !! l = Some (Polyline three_points "red" 4).
Proof.
  destruct (reply_route_reaches_the_map sample_payload sample_route initialState mappedPage
              {| map_layers := {[1%nat]} ∪ ∅;
                 map_view := Some (SetView (418781 # 10000, - (876298 # 10000)) 5) |}
              (418781 # 10000, - (876298 # 10000))
              (386270 # 10000, - (901994 # 10000))
              (337490 # 10000, - (843880 # 10000))
              [] eq_refl eq_refl eq_refl eq_refl)
    as (p' & m' & H1 & H2 & _ & H3).
  exists p', m'. repeat split; assumption.
Defined.

(** X6. Over any sequence of events, overlapping submissions included, the
    logs, route points and distance on display stay exactly as they were
    unless one of the events is a reply with status 2xx and [success] true:
    submitting, editing a field and failing replies never touch them. *)
Theorem display_changes_only_on_success (w : World) (es : list Event) :
  forallb (fun e => negb (is_successful_settle e)) es = true ->
  displayed (app (run w es)) = displayed (app w).
Proof.
  revert w. induction es as [|e es IH]; intros w Hes; [reflexivity|].
  cbn in Hes. apply andb_true_iff in Hes as [He Hes]. apply negb_true_iff in He.
  rewrite run_cons, (IH _ Hes). apply step_keeps_display, He.
Qed.

Lemma display_changes_only_on_success_witness :
  displayed (app (run (run initialWorld [Submit; Settle 0 (Responded true (BodyJson sample_payload))])
                      [Submit; EditPickup "Memphis, TN"; Submit; Settle 1 sample_failure;
                       Settle 0 (FetchRejected {| message := "Failed to fetch" |})]))
  = payload_result sample_payload sample_route.
Proof.
  rewrite (display_changes_only_on_success
             (run initialWorld [Submit; Settle 0 (Responded true (BodyJson sample_payload))])
             [Submit; EditPickup "Memphis, TN"; Submit; Settle 1 sample_failure;
              Settle 0 (FetchRejected {| message := "Failed to fetch" |})] eq_refl).
  reflexivity.
Defined.

(** X7. Through the form, the error banner is never shown while a call is
    pending, and when the pending call is answered with status 2xx,
    [success] true and a route, the page shows that payload with no error
    banner, nothing pending and the button enabled. *)
Theorem form_success_shows_no_error (w : World) :
  form_reachable w ->
  (isCalculating (app w) = true -> error_banner (app w) = None)
  /\ (forall (k : nat) (data : Payload) (route : Route),
         (k < length (pending w))%nat ->
         data_success data = true -> data_route data = Some route ->
         error_banner (app (step w (Settle k (Responded true (BodyJson data))))) = None
         /\ displayed (app (step w (Settle k (Responded true (BodyJson data)))))
            = payload_result data route
         /\ pending (step w (Settle k (Responded true (BodyJson data)))) = []
         /\ form_allows (step w (Settle k (Responded true (BodyJson data)))) Submit = true).
Proof.
  intros Hw. pose proof (form_no_error_in_flight w Hw) as Hclean.
  destruct (form_invariant w Hw) as [Hlen Hflag].
  split.
  - intros Hc. unfold error_banner. rewrite (Hclean Hc). reflexivity.
  - intros k data route Hk Hs Hr.
    destruct (pending w) as [|r [|r' rest]] eqn:Hp; cbn in Hk, Hlen; try lia.
    assert (k = 0)%nat as -> by lia.
    assert (Hc : isCalculating (app w) = true) by (apply Hflag; discriminate).
    cbn. rewrite Hp. cbn. rewrite (resume_on_success data route _ Hs Hr).
    unfold error_banner. cbn. rewrite (Hclean Hc). repeat split.
Qed.

Lemma form_success_shows_no_error_witness :
  error_banner (app (step (step (step (step initialWorld Submit) (Settle 0 sample_failure))
                                Submit)
                          (Settle 0 (Responded true (BodyJson sample_payload))))) = None.
Proof.
  assert (Hreach : form_reachable
                     (step (step (step initialWorld Submit) (Settle 0 sample_failure)) Submit)).
  { repeat (apply reach_step; [|reflexivity]). apply reach_init. }
  apply (proj2 (form_success_shows_no_error _ Hreach) 0%nat sample_payload sample_route);
    [cbn; lia | reflexivity | reflexivity].
Defined.

(** X9. What a whole submission leaves in the error cell and in the
    in-flight flag depends on the reply alone, not on the state it started
    from, so an old error never survives a submission; receiving the same
    reply to a second submission changes nothing; and a reply with status
    2xx, [success] true and a route leaves the error empty. *)
Theorem banner_depends_on_reply_alone :
  (forall (reply : Reply) (s s' : AppState),
      error (handleSubmit reply s) = error (handleSubmit reply s')
      /\ isCalculating (handleSubmit reply s) = isCalculating (handleSubmit reply s'))
  /\ (forall (reply : Reply) (s : AppState),
         handleSubmit reply (handleSubmit reply s) = handleSubmit reply s)
  /\ (forall (data : Payload) (route : Route) (s : AppState),
         data_success data = true -> data_route data = Some route ->
         error (handleSubmit (Responded true (BodyJson data)) s) = EmptyString
         /\ displayed (handleSubmit (Responded true (BodyJson data)) s)
            = payload_result data route).
Proof.
  split; [|split].
  - intros reply s s'. unfold handleSubmit, handleSubmit_resume.
    destruct reply as [err|ok [err|data]]; cbn; try (split; reflexivity).
    destruct (ok && data_success data); cbn; [|split; reflexivity].
    destruct (data_route data); cbn; split; reflexivity.
  - intros reply s. unfold handleSubmit, handleSubmit_resume.
    destruct s. destruct reply as [err|ok [err|data]]; cbn; try reflexivity.
    destruct (ok && data_success data); cbn; [|reflexivity].
    destruct (data_route data); cbn; reflexivity.
  - intros data route s Hs Hr. unfold handleSubmit.
    rewrite (resume_on_success data route _ Hs Hr). split; reflexivity.
Qed.

Lemma banner_depends_on_reply_alone_witness :
  error (handleSubmit (Responded true (BodyJson sample_payload))
           (handleSubmit sample_failure initialState)) = EmptyString.
Proof.
  apply (proj2 (proj2 banner_depends_on_reply_alone) sample_payload sample_route);
    reflexivity.
Defined.

(** ** How far the printed numbers are from the computed ones *)

Section Rounding.

Lemma round_half_up_bounds (y : Q) :
  inject_Z (round_half_up y) <= y + (1 # 2)
  /\ y + (1 # 2) < inject_Z (round_half_up y) + 1.
Proof.
  unfold round_half_up. split.
  - apply Qfloor_le.
  - pose proof (Qlt_floor (y + (1 # 2))) as H.
    rewrite inject_Z_plus in H. exact H.
Qed.

Lemma parseFloat_tenths (n : Z) : parseFloat n == inject_Z n * (1 # 10).
Proof. unfold parseFloat. rewrite Qmake_Qdiv. field. Qed.

Lemma toFixed1_near (x : Q) :
  x - (1 # 20) <= parseFloat (toFixed1 x) /\ parseFloat (toFixed1 x) <= x + (1 # 20).
Proof.
  rewrite parseFloat_tenths. unfold toFixed1.
  destruct (Qlt_le_dec x 0) as [Hneg|Hpos].
  - destruct (round_half_up_bounds (- x * 10)) as [Hlo Hhi].
    rewrite inject_Z_opp. split; lra.
  - destruct (round_half_up_bounds (x * 10)) as [Hlo Hhi]. split; lra.
Qed.

Lemma round_half_up_mono (x y : Q) : x <= y -> (round_half_up x <= round_half_up y)%Z.
Proof. intros H. unfold round_half_up. apply Qfloor_resp_le. lra. Qed.

Lemma round_half_up_nonneg (x : Q) : 0 <= x -> (0 <= round_half_up x)%Z.
Proof.
  intros H. change 0%Z with (Qfloor 0). unfold round_half_up.
  apply Qfloor_resp_le. lra.
Qed.

Lemma toFixed1_mono (x y : Q) : x <= y -> (toFixed1 x <= toFixed1 y)%Z.
Proof.
  intros H. unfold toFixed1.
  destruct (Qlt_le_dec x 0) as [Hx|Hx], (Qlt_le_dec y 0) as [Hy|Hy].
  - apply Z.opp_le_mono. rewrite !Z.opp_involutive. apply round_half_up_mono. lra.
  - assert (0 <= round_half_up (- x * 10))%Z by (apply round_half_up_nonneg; lra).
    assert (0 <= round_half_up (y * 10))%Z by (apply round_half_up_nonneg; lra).
    lia.
  - lra.
  - apply round_half_up_mono. lra.
Qed.

Lemma remaining_antitone (used used' trip trip' : Q) :
  used <= used' -> trip <= trip' ->
  remainingCycleHours used' trip' <= remainingCycleHours used trip.
Proof.
  intros Hu Ht. unfold remainingCycleHours.
  destruct (Q.max_spec 0 (70 - (used' + trip'))) as [[_ ->]|[_ ->]];
    destruct (Q.max_spec 0 (70 - (used + trip))) as [[? ->]|[? ->]]; lra.
Qed.

Lemma remaining_lipschitz (used trip trip' : Q) :
  trip - (1 # 20) <= trip' -> trip' <= trip + (1 # 20) ->
  remainingCycleHours used trip - (1 # 20) <= remainingCycleHours used trip'
  /\ remainingCycleHours used trip' <= remainingCycleHours used trip + (1 # 20).
Proof.
  intros Hlo Hhi. unfold remainingCycleHours.
  destruct (Q.max_spec 0 (70 - (used + trip'))) as [[? ->]|[? ->]];
    destruct (Q.max_spec 0 (70 - (used + trip))) as [[? ->]|[? ->]]; split; lra.
Qed.

Lemma remaining_at_most_70 (used trip : Q) :
  0 <= used + trip -> remainingCycleHours used trip <= 70.
Proof.
  intros H. unfold remainingCycleHours.
  destruct (Q.max_spec 0 (70 - (used + trip))) as [[? ->]|[? ->]]; lra.
Qed.

Lemma duty_hours_sum_nonneg (logs : list DayLog) :
  Forall (fun d => 0 <= total_driving d /\ 0 <= total_on_duty d) logs ->
  0 <= duty_hours_sum logs.
Proof.
  induction 1 as [|d rest [Hd Ho] _ IH]; cbn; lra.
Qed.

Lemma totalTripHours_app (l1 l2 : list DayLog) :
  totalTripHours (l1 ++ l2) == totalTripHours l1 + duty_hours_sum l2.
Proof.
  unfold totalTripHours. rewrite fold_left_app, !reduce_from_acc. ring.
Qed.

End Rounding.



(** X10. The numbers printed in the compliance banner are close to the
    computed ones: the printed trip total and the first revision's printed
    remaining cycle are within 0.05 of the exact values, and the second
    revision's printed remaining cycle, which rounds twice, is within 0.1 of
    the exact remaining cycle. *)
Theorem printed_hours_are_close (used : Q) (logs : list DayLog) :
  (totalTripHours logs - (1 # 20) <= parseFloat (calculateTotalTripHours logs)
   /\ parseFloat (calculateTotalTripHours logs) <= totalTripHours logs + (1 # 20))
  /\ (remainingCycleHours used (totalTripHours logs) - (1 # 20)
      <= parseFloat (banner_remaining_cycle used logs)
      /\ parseFloat (banner_remaining_cycle used logs)
         <= remainingCycleHours used (totalTripHours logs) + (1 # 20))
  /\ (remainingCycleHours used (totalTripHours logs) - (1 # 10)
      <= parseFloat (calculateRemainingCycle used logs)
      /\ parseFloat (calculateRemainingCycle used logs)
         <= remainingCycleHours used (totalTripHours logs) + (1 # 10)).
Proof.
  split; [|split].
  - apply toFixed1_near.
  - apply toFixed1_near.
  - unfold calculateRemainingCycle, calculateTotalTripHours.
    destruct (toFixed1_near (totalTripHours logs)) as [Hlo Hhi].
    destruct (remaining_lipschitz used (totalTripHours logs)
                (parseFloat (toFixed1 (totalTripHours logs))) Hlo Hhi) as [Rlo Rhi].
    destruct (toFixed1_near
                (remainingCycleHours used (parseFloat (toFixed1 (totalTripHours logs)))))
      as [Plo Phi].
    split; lra.
Qed.

(** X11. For a non-negative cycle-used figure and day logs with
    non-negative driving and on-duty totals, the printed trip total is not
    negative and the printed remaining cycle lies between 0.0 and 70.0, in
    both revisions. *)
Theorem printed_remaining_in_range (used : Q) (logs : list DayLog) :
  0 <= used ->
  Forall (fun d => 0 <= total_driving d /\ 0 <= total_on_duty d) logs ->
  (0 <= calculateTotalTripHours logs)%Z
  /\ (0 <= banner_remaining_cycle used logs <= 700)%Z
  /\ (0 <= calculateRemainingCycle used logs <= 700)%Z.
Proof.
  intros Hused Hlogs.
  assert (Htrip : 0 <= totalTripHours logs).
  { unfold totalTripHours. rewrite reduce_from_acc.
    pose proof (duty_hours_sum_nonneg logs Hlogs). lra. }
  assert (Hprinted : (0 <= calculateTotalTripHours logs)%Z).
  { change 0%Z with (toFixed1 0). apply toFixed1_mono, Htrip. }
  assert (Hrange : forall t, 0 <= t ->
             (0 <= toFixed1 (remainingCycleHours used t) <= 700)%Z).
  { intros t Ht. split.
    - change 0%Z with (toFixed1 0). apply toFixed1_mono, remaining_nonneg.
    - change 700%Z with (toFixed1 70). apply toFixed1_mono, remaining_at_most_70. lra. }
  split; [exact Hprinted|]. split.
  - apply Hrange, Htrip.
  - apply Hrange. rewrite parseFloat_tenths.
    rewrite Zle_Qle in Hprinted. change (inject_Z 0) with 0 in Hprinted. lra.
Qed.

Lemma printed_remaining_in_range_witness :
  (0 <= calculateRemainingCycle (45 # 2) [sample_day 1 11 3; sample_day 2 11 (5 # 2)] <= 700)%Z.
Proof.
  apply (printed_remaining_in_range (45 # 2) [sample_day 1 11 3; sample_day 2 11 (5 # 2)]).
  - apply Qle_bool_iff. reflexivity.
  - repeat constructor; apply Qle_bool_iff; reflexivity.
Defined.

(** X12. More hours never print a larger remaining cycle: raising the
    cycle-used figure or appending day logs with non-negative driving and
    on-duty totals leaves the printed remaining cycle the same or lowers it,
    in both revisions. *)
Theorem more_hours_never_raise_remaining
        (used used' : Q) (logs more : list DayLog) :
  used <= used' ->
  Forall (fun d => 0 <= total_driving d /\ 0 <= total_on_duty d) more ->
  (banner_remaining_cycle used' (logs ++ more) <= banner_remaining_cycle used logs)%Z
  /\ (calculateRemainingCycle used' (logs ++ more) <= calculateRemainingCycle used logs)%Z.
Proof.
  intros Hused Hmore.
  assert (Htrip : totalTripHours logs <= totalTripHours (logs ++ more)).
  { rewrite totalTripHours_app. pose proof (duty_hours_sum_nonneg more Hmore). lra. }
  split.
  - apply toFixed1_mono, remaining_antitone; assumption.
  - unfold calculateRemainingCycle, calculateTotalTripHours.
    apply toFixed1_mono, remaining_antitone; [assumption|].
    rewrite !parseFloat_tenths.
    pose proof (toFixed1_mono _ _ Htrip) as Hz. rewrite Zle_Qle in Hz. lra.
Qed.

Lemma more_hours_never_raise_remaining_witness :
  (calculateRemainingCycle 30 ([sample_day 1 11 3] ++ [sample_day 2 11 (5 # 2)])
   <= calculateRemainingCycle (45 # 2) [sample_day 1 11 3])%Z.
Proof.
  apply (more_hours_never_raise_remaining (45 # 2) 30
           [sample_day 1 11 3] [sample_day 2 11 (5 # 2)]).
  - apply Qle_bool_iff. reflexivity.
  - repeat constructor; apply Qle_bool_iff; reflexivity.
Defined.

(** ** Labels, requests and day cards *)

(** X13. The popups are built from the location fields as they are when the
    route effect runs, not from the request that produced the route: if the
    pickup field is edited after a submit and before its successful reply,
    the request still carries the old pickup, but the marker put on the
    reply's second point is labelled with the new text. *)
Theorem popup_follows_the_field_not_the_request
        (w : World) (v : string) (data : Payload) (route : Route)
        (p : Page) (m : Map) (a b c : LatLng) (rest : list LatLng) :
  pending w = [] ->
  data_success data = true -> data_route data = Some route ->
  route_points route = a :: b :: c :: rest ->
  mapRef p = Some m ->
  let w2 := step (step w Submit) (EditPickup v) in
  let w3 := step w2 (Settle 0 (Responded true (BodyJson data))) in
  (exists req : TripRequest,
      pending w2 = [req] /\ req_pickupLocation req = pickupLocation (app w))
  /\ pending w3 = []
  /\ exists (p' : Page) (i : nat),
       routeEffect (app w3) p = Normal p'
       /\ markersRef p' !! "pickup"%string = Some i
       /\ objects (store p') !! i = Some (Marker (Some b) (Some ("Pickup: " +:+ v)%string)).
Proof.
  intros Hp Hs Hr Hpts Hm. cbv zeta. cbn [step handleSubmit_begin app pending].
  rewrite Hp. cbn [app pending lookup list_lookup delete app].
  split; [eexists; split; reflexivity|].
  change ([] ++ ?x) with x. cbn. split; [reflexivity|].
  rewrite (resume_on_success data route _ Hs Hr).
  match goal with
  | |- exists p' i, routeEffect ?s p = _ /\ _ =>
      destruct (rebuilt_role_markers s p m a b c rest Hm Hpts)
        as (p' & m' & Hrun & _ & Hroles & _)
  end.
  destruct (Hroles "pickup"%string) as (i & pt & Hi & _ & Hpt & Hobj).
  { unfold roles. set_solver. }
  exists p', i. split; [exact Hrun|]. split; [exact Hi|].
  unfold role_point in Hpt. cbn in Hpt. rewrite Hpts in Hpt. cbn in Hpt.
  injection Hpt as <-. exact Hobj.
Qed.

Lemma popup_follows_the_field_not_the_request_witness :
  exists (p' : Page) (i : nat),
    routeEffect
      (app (step (step (step initialWorld Submit) (EditPickup "Memphis, TN"))
                 (Settle 0 (Responded true (BodyJson sample_payload)))))
      mappedPage = Normal p'
    /\ markersRef p' !! "pickup"%string = Some i
    /\ objects (store p') !! i
       = Some (Marker (Some (386270 # 10000, - (901994 # 10000)))
                      (Some "Pickup: Memphis, TN"%string)).
Proof.
  exact (proj2 (proj2
           (popup_follows_the_field_not_the_request initialWorld "Memphis, TN"
              sample_payload sample_route mappedPage
              {| map_layers := {[1%nat]} ∪ ∅;
                 map_view := Some (SetView (418781 # 10000, - (876298 # 10000)) 5) |}
              (418781 # 10000, - (876298 # 10000))
              (386270 # 10000, - (901994 # 10000))
              (337490 # 10000, - (843880 # 10000))
              [] eq_refl eq_refl eq_refl eq_refl eq_refl))).
Defined.

(** X14. A day log whose four totals add up to 24 hours gets 24.0 printed
    on its card, and in general the printed per-day total is within 0.05 of
    the sum of the four totals. *)
Theorem daily_total_of_a_full_day (d : DayLog) :
  (dailyTotal d - (1 # 20) <= parseFloat (toFixed1 (dailyTotal d))
   /\ parseFloat (toFixed1 (dailyTotal d)) <= dailyTotal d + (1 # 20))
  /\ (total_driving d + total_on_duty d + total_sleeper d + total_off_duty d == 24 ->
      daily_total_text d = "24.0"%string).
Proof.
  split; [apply toFixed1_near|].
  intros H. unfold daily_total_text.
  rewrite (toFixed1_comp (dailyTotal d) 24 H). reflexivity.
Qed.

Lemma daily_total_of_a_full_day_witness :
  daily_total_text (sample_day 1 11 (5 # 2)) = "24.0"%string.
Proof.
  apply (proj2 (daily_total_of_a_full_day (sample_day 1 11 (5 # 2)))). reflexivity.
Defined.
